(** * PhotoGeoLocator: the track loader, the coordinate conversion and the tagger

    A shallow embedding of [geolocate_photos.py]: the loader, the conversion
    and the tagger first, then the parser of drop events and the stripping
    of the location tags.  Python floats (and numpy's
    float64) are IEEE binary64 numbers: they are modelled by Rocq's primitive
    floats, so every arithmetic step rounds exactly as it does in the program.
    Naive datetimes are integers (microseconds), exceptions are values of an
    error monad, and the photo files live in a finite map from paths to file
    contents that the tagger reads and overwrites. *)

From Stdlib Require Import ZArith Lia Bool List.
From Stdlib Require Import Floats.PrimFloat Floats.SpecFloat Floats.FloatOps.
From Stdlib Require Import Strings.Ascii Strings.String.
From stdpp Require Import base option list strings gmap.

Local Open Scope Z_scope.

(** ** Python exceptions and the error monad *)

Inductive exn : Type :=
| TypeError
| ValueError
| OverflowError
| IndexError
| KeyError
| ZeroDivisionError
| ParseError
| FileNotFoundError
| UnreadableImage.

Inductive result (A : Type) : Type :=
| Ok (a : A)
| Raise (e : exn).
Arguments Ok {A} a.
Arguments Raise {A} e.

#[global] Instance result_ret : MRet result := fun _ a => Ok a.
#[global] Instance result_bind : MBind result := fun _ _ k m =>
  match m with
  | Ok a => k a
  | Raise e => Raise e
  end.

#[global] Instance result_fmap : FMap result := fun _ _ f m =>
  match m with
  | Ok a => Ok (f a)
  | Raise e => Raise e
  end.

(** ** Binary64 arithmetic beyond the primitive operations

    [math.fmod], [math.floor] and [int()] are exact on binary64; they are
    computed on the integer mantissa and exponent of their argument. *)

Module PyFloat.

(** A finite float as [m * 2^e]. *)
Definition dyadic (f : float) : option (Z * Z) :=
  match Prim2SF f with
  | S754_zero _ => Some (0, 0)
  | S754_finite s m e => Some (if s then Z.neg m else Z.pos m, e)
  | S754_infinity _ | S754_nan => None
  end.

(** Dividing an integer by two while it is even. *)
Fixpoint odd_part (p : positive) (e : Z) : positive * Z :=
  match p with
  | xO q => odd_part q (e + 1)
  | _ => (p, e)
  end.

(** [m * 2^e] back as a float; exact whenever the value is representable. *)
Definition of_dyadic (neg : bool) (m e : Z) : float :=
  match m with
  | Z0 => if neg then (-0)%float else 0%float
  | Zpos p | Zneg p =>
      let '(q, e') := odd_part p e in
      SF2Prim (S754_finite neg q e')
  end.

Definition of_Z (z : Z) : float := of_dyadic (z <? 0) z 0.

(** The integer [m * 2^e], rounded towards zero ([Z.quot]) for [e < 0]. *)
Definition trunc_dyadic (m e : Z) : Z :=
  if 0 <=? e then m * 2 ^ e else Z.quot m (2 ^ (- e)).

(** The integer [m * 2^e], rounded down. *)
Definition floor_dyadic (m e : Z) : Z :=
  if 0 <=? e then m * 2 ^ e else m / 2 ^ (- e).

(** C's [fmod]: the remainder has the sign of the dividend and is exact. *)
Definition fmod (x y : float) : float :=
  match dyadic x, dyadic y with
  | Some (mx, ex), Some (my, ey) =>
      if my =? 0 then nan
      else if mx =? 0 then x
      else
        let e := Z.min ex ey in
        let X := mx * 2 ^ (ex - e) in
        let Y := my * 2 ^ (ey - e) in
        of_dyadic (mx <? 0) (Z.rem X Y) e
  | Some _, None => if is_nan y then nan else x
  | None, _ => nan
  end.

(** C's [floor]. *)
Definition floor (x : float) : float :=
  match dyadic x with
  | Some (m, e) =>
      if m =? 0 then x
      else
        let n := floor_dyadic m e in
        if n =? 0 then (if m <? 0 then (-0)%float else 0%float)
        else of_dyadic (m <? 0) n 0
  | None => x
  end.

Definition copysign (x y : float) : float :=
  if get_sign y then (- abs x)%float else abs x.

(** A float used as a condition: false for both zeros, true for the rest
    (a NaN included). *)
Definition truthy (x : float) : bool := negb (x =? 0)%float.

(** [float.__divmod__], after CPython's [float_divmod]; numpy's
    [npy_divmod] runs the same steps whenever the divisor is not zero. *)
Definition divmod (vx wx : float) : result (float * float) :=
  if (wx =? 0)%float then Raise ZeroDivisionError
  else
    let mod0 := fmod vx wx in
    let div0 := ((vx - mod0) / wx)%float in
    let '(mod1, div1) :=
      if truthy mod0 then
        if negb (Bool.eqb (wx <? 0)%float (mod0 <? 0)%float)
        then ((mod0 + wx)%float, (div0 - 1)%float)
        else (mod0, div0)
      else (copysign 0%float wx, div0) in
    let floordiv :=
      if truthy div1 then
        let fd := floor div1 in
        if (0.5 <? div1 - fd)%float then (fd + 1)%float else fd
      else copysign 0%float (vx / wx)%float in
    Ok (floordiv, mod1).

(** [int(x)] on a float: truncation, [ValueError] on a NaN and
    [OverflowError] on an infinity. *)
Definition to_int (x : float) : result Z :=
  match dyadic x with
  | Some (m, e) => Ok (trunc_dyadic m e)
  | None => if is_nan x then Raise ValueError else Raise OverflowError
  end.

End PyFloat.

(** ** Coordinate conversion *)

(** [deg_to_dms]: degrees, minutes, seconds and hemisphere of a decimal
    degree value. *)
Definition deg_to_dms (deg : float) : result (Z * Z * float * Z) :=
  '(mins, secs) ← PyFloat.divmod (abs deg * 3600)%float 60%float;
  '(degs, mins) ← PyFloat.divmod mins 60%float;
  let degs := if (deg <? 0)%float then (- degs)%float else degs in
  degs ← PyFloat.to_int degs;
  mins ← PyFloat.to_int mins;
  let hemi := if 0 <? degs then 1 else -1 in
  let degs := degs * hemi in
  Ok (degs, mins, secs, hemi).

(** ** Piecewise-linear interpolation

    [np.interp(x, xp, fp)] is numpy's; the tagger calls it with a scalar [x]
    and two columns of the track.  The model follows numpy's routine on an
    increasing [xp] (which numpy requires and does not check): the index of
    the interval is searched first, then the end points, an exact hit and
    the slope are distinguished in numpy's order. *)

Definition fnth (l : list float) (i : Z) : float := nth (Z.to_nat i) l nan.

(** The number of samples, after the first one, that the key has reached. *)
Fixpoint reached (key : float) (rest : list float) : Z :=
  match rest with
  | [] => 0
  | a :: rest' => if (a <=? key)%float then 1 + reached key rest' else 0
  end.

(** [-1] below the first sample, [len] above the last one, otherwise the
    index [j] with [arr[j] <= key < arr[j+1]]. *)
Definition search_interval (key : float) (arr : list float) : Z :=
  let len := Z.of_nat (length arr) in
  if (fnth arr (len - 1) <? key)%float then len
  else if (key <? fnth arr 0)%float then -1
  else match arr with
       | [] => -1
       | _ :: rest => reached key rest
       end.

Definition np_interp (x : float) (xp fp : list float) : result float :=
  let lenxp := Z.of_nat (length xp) in
  if negb (Z.of_nat (length fp) =? lenxp) then Raise ValueError
  else if lenxp =? 0 then Raise ValueError
  else
    let lval := fnth fp 0 in
    let rval := fnth fp (lenxp - 1) in
    if lenxp =? 1 then
      let xp_val := fnth xp 0 in
      let fp_val := fnth fp 0 in
      Ok (if (x <? xp_val)%float then lval
          else if (xp_val <? x)%float then rval else fp_val)
    else if is_nan x then Ok x
    else
      let j := search_interval x xp in
      if j =? -1 then Ok lval
      else if j =? lenxp then Ok rval
      else if j =? lenxp - 1 then Ok (fnth fp j)
      else if (fnth xp j =? x)%float then Ok (fnth fp j)
      else
        let slope :=
          ((fnth fp (j + 1) - fnth fp j) / (fnth xp (j + 1) - fnth xp j))%float in
        let r := (slope * (x - fnth xp j) + fnth fp j)%float in
        if is_nan r then
          let r' := (slope * (x - fnth xp (j + 1)) + fnth fp (j + 1))%float in
          if is_nan r' && (fnth fp j =? fnth fp (j + 1))%float
          then Ok (fnth fp j) else Ok r'
        else Ok r.

(** ** Dates and times

    A naive [datetime] is its number of microseconds since 1970-01-01
    00:00:00 on its own wall clock; a [timedelta] is a number of
    microseconds. *)

Definition datetime : Type := Z.
Definition timedelta : Type := Z.

(** What the program takes from its libraries and from the machine it runs
    on.  [None] stands for the [ValueError] the library call raises. *)
Class Runtime : Type := {
  (** [strptime(s, "%Y-%m-%dT%H:%M:%S%z").astimezone(tz).replace(tzinfo=None)]
      with [tz] the local zone of [get_timezone]. *)
  strptime_gpx : string -> option datetime;
  (** [strptime(s, "%Y:%m:%d %H:%M:%S")]. *)
  strptime_exif : string -> option datetime;
  (** [float(s)] on a string. *)
  float_of_string : string -> option float;
  (** [dt.timestamp()] of a naive datetime: seconds since the epoch, the
      datetime read in the local zone. *)
  timestamp : datetime -> float
}.

(** ** The track *)

(** One row of the data frame: the columns [Time], [Datetime], [Timestamp],
    [Latitude], [Longitude]. *)
Record row : Type := Row {
  Time : string;
  Datetime : datetime;
  Timestamp : float;
  Latitude : float;
  Longitude : float
}.

(** [pd.DataFrame()] has no columns at all; [pd.DataFrame(rows, columns=header)]
    has the five columns, with no row when the list is empty. *)
Inductive DataFrame : Type :=
| NoColumns
| Frame (rows : list row).

(** A [trkpt] element: the texts of its nested [time] elements (an empty
    element has no text), and its [lon] and [lat] attributes when present. *)
Record trkpt : Type := Trkpt {
  time_elements : list (option string);
  attr_lon : option string;
  attr_lat : option string
}.

(** A file handed to [ET.parse]: absent, not well-formed, or a document with
    its [trkpt] elements in document order. *)
Inductive gpx_file : Type :=
| NoSuchFile
| NotWellFormed
| Document (trkpts : list trkpt).

(** [float(v)] for an attribute value [v = elm.get(name)]. *)
Definition py_float `{Runtime} (v : option string) : result float :=
  match v with
  | None => Raise TypeError
  | Some s => match float_of_string s with
              | Some f => Ok f
              | None => Raise ValueError
              end
  end.

(** The body of the loop of [extract_points], for one element. *)
Definition extract_point `{Runtime} (elm : trkpt) : result row :=
  text ← match time_elements elm with
         | [] => Raise IndexError
         | t :: _ => Ok t
         end;
  time ← match text with
         | None => Raise TypeError
         | Some s => Ok s
         end;
  dt ← match strptime_gpx time with
       | Some d => Ok d
       | None => Raise ValueError
       end;
  let ts := timestamp dt in
  lon ← py_float (attr_lon elm);
  lat ← py_float (attr_lat elm);
  Ok (Row time dt ts lat lon).

Fixpoint extract_rows `{Runtime} (elms : list trkpt) : result (list row) :=
  match elms with
  | [] => Ok []
  | elm :: rest =>
      r ← extract_point elm;
      rs ← extract_rows rest;
      Ok (r :: rs)
  end.

Definition extract_points `{Runtime} (file : gpx_file) : result DataFrame :=
  match file with
  | NoSuchFile => Raise FileNotFoundError
  | NotWellFormed => Raise ParseError
  | Document elms => rows ← extract_rows elms; Ok (Frame rows)
  end.

(** [AppState.edit_gpx]: the frame the interface keeps after a load. *)
Definition edit_gpx `{Runtime} (file : gpx_file) : DataFrame :=
  match extract_points file with
  | Ok df => df
  | Raise _ => NoColumns
  end.

(** ** Photos and the files that hold them *)

Definition dms : Type := (Z * Z * float)%type.

(** The attributes of an [exif.Image] that the program touches; [None] is
    an attribute the image does not have (reading or deleting it raises
    [AttributeError]). *)
Record Image : Type := MkImage {
  datetime_original : option string;
  gps_latitude : option dms;
  gps_longitude : option dms;
  gps_latitude_ref : option string;
  gps_longitude_ref : option string
}.

Definition no_exif : Image := MkImage None None None None None.

Definition set_gps_latitude (v : option dms) (p : Image) : Image :=
  MkImage (datetime_original p) v (gps_longitude p)
          (gps_latitude_ref p) (gps_longitude_ref p).
Definition set_gps_longitude (v : option dms) (p : Image) : Image :=
  MkImage (datetime_original p) (gps_latitude p) v
          (gps_latitude_ref p) (gps_longitude_ref p).
Definition set_gps_latitude_ref (v : option string) (p : Image) : Image :=
  MkImage (datetime_original p) (gps_latitude p) (gps_longitude p)
          v (gps_longitude_ref p).
Definition set_gps_longitude_ref (v : option string) (p : Image) : Image :=
  MkImage (datetime_original p) (gps_latitude p) (gps_longitude p)
          (gps_latitude_ref p) v.

(** The content of a file: an image with its metadata, a file whose metadata
    block [exif.Image] cannot decode, or a file of no bytes (what
    [open(path, "wb")] leaves until something is written). *)
Inductive file : Type :=
| ImageFile (img : Image)
| CorruptFile
| EmptyFile.

(** A line printed by the program. *)
Inductive message : Type :=
| SkipNoTime (path : string)
| SkipHasLocation (path : string)
| SkipOutOfBounds (path : string) (photo_t min_t max_t : datetime)
| AddingLocation (path : string)
| DeleteFailed (path : string)
| DatetimeFailed (photo : Image).

(** The files on disk and the lines printed so far (oldest first). *)
Record world : Type := World {
  files : gmap string file;
  console : list message
}.

(** Computations that read and write the world and may raise. *)
Definition IO (A : Type) : Type := world -> result A * world.

#[global] Instance IO_ret : MRet IO := fun _ a w => (Ok a, w).
#[global] Instance IO_bind : MBind IO := fun _ _ k m w =>
  match m w with
  | (Ok a, w') => k a w'
  | (Raise e, w') => (Raise e, w')
  end.

Definition lift {A : Type} (r : result A) : IO A := fun w => (r, w).

Definition print (m : message) : IO unit :=
  fun w => (Ok tt, World (files w) (console w ++ [m])).

(** [with open(path, "rb") as image_file: Image(image_file)]. *)
Definition load_photo (path : string) : IO Image :=
  fun w =>
    match files w !! path with
    | None => (Raise FileNotFoundError, w)
    | Some (ImageFile img) => (Ok img, w)
    | Some CorruptFile => (Raise UnreadableImage, w)
    | Some EmptyFile => (Ok no_exif, w)
    end.

(** [open(path, "wb")]: the file is emptied (or created empty). *)
Definition open_wb (path : string) : IO unit :=
  fun w => (Ok tt, World (<[path := EmptyFile]> (files w)) (console w)).

(** [image_file.write(photo.get_file())].  A file is recorded by the five
    attributes a later read finds in it, not by its bytes: the layout of the
    metadata block that [get_file] produces is not modelled, so equal files
    here are photos that read back alike, not byte-identical ones. *)
Definition write_photo (path : string) (photo : Image) : IO unit :=
  fun w => (Ok tt, World (<[path := ImageFile photo]> (files w)) (console w)).

Definition photo_has_lat_long (photo : Image) : bool :=
  match gps_latitude photo with
  | None => false
  | Some _ =>
    match gps_longitude photo with
    | None => false
    | Some _ =>
      match gps_latitude_ref photo with
      | None => false
      | Some _ =>
        match gps_longitude_ref photo with
        | None => false
        | Some _ => true
        end
      end
    end
  end.

Definition photo_has_datetime (photo : Image) : bool :=
  match datetime_original photo with
  | None => false
  | Some _ => true
  end.

(** [get_photo_datetime(photo)] with no time zone: every exception is
    printed, and the function then returns [None]. *)
Definition get_photo_datetime `{Runtime} (photo : Image) : IO (option datetime) :=
  match datetime_original photo with
  | None => _ ← print (DatetimeFailed photo); mret None
  | Some s =>
      match strptime_exif s with
      | Some dt => mret (Some dt)
      | None => _ ← print (DatetimeFailed photo); mret None
      end
  end.

(** ** The tagger *)

(** [df[name]]: a column of the frame, [KeyError] when the frame has none. *)
Definition column {A : Type} (f : row -> A) (df : DataFrame) : result (list A) :=
  match df with
  | NoColumns => Raise KeyError
  | Frame rows => Ok (map f rows)
  end.

(** [Series.min()] and [Series.max()]: [None] is the NaN of an empty column. *)
Definition series_min (l : list datetime) : option datetime :=
  match l with
  | [] => None
  | x :: rest => Some (fold_left Z.min rest x)
  end.

Definition series_max (l : list datetime) : option datetime :=
  match l with
  | [] => None
  | x :: rest => Some (fold_left Z.max rest x)
  end.

(** [os.path.splitext(f)[1]] (the POSIX flavour) and [str.lower] on ASCII. *)
Module Path.

Fixpoint rfind_from (c : ascii) (s : string) (i acc : Z) : Z :=
  match s with
  | EmptyString => acc
  | String a rest => rfind_from c rest (i + 1) (if Ascii.eqb a c then i else acc)
  end.

Definition rfind (c : ascii) (s : string) : Z := rfind_from c s 0 (-1).

(** Is there a character other than a dot among the [count] characters
    of [s] from position [from]? *)
Fixpoint has_non_dot (s : string) (from count : nat) : bool :=
  match count with
  | O => false
  | S count' =>
      match String.get from s with
      | Some c => if Ascii.eqb c "."%char then has_non_dot s (S from) count' else true
      | None => true
      end
  end.

Definition splitext_ext (p : string) : string :=
  let sepIndex := rfind "/"%char p in
  let dotIndex := rfind "."%char p in
  if (sepIndex <? dotIndex)
     && has_non_dot p (Z.to_nat (sepIndex + 1)) (Z.to_nat (dotIndex - (sepIndex + 1)))
  then String.substring (Z.to_nat dotIndex) (String.length p - Z.to_nat dotIndex) p
  else EmptyString.

Definition lower_char (c : ascii) : ascii :=
  let n := nat_of_ascii c in
  if ((65 <=? n) && (n <=? 90))%nat then ascii_of_nat (n + 32) else c.

Fixpoint lower (s : string) : string :=
  match s with
  | EmptyString => EmptyString
  | String c rest => String (lower_char c) (lower rest)
  end.

End Path.

Definition valid_path (valid_filetypes : list string) (f : string) : bool :=
  existsb (String.eqb (Path.lower (Path.splitext_ext f))) valid_filetypes.

Definition default_filetypes : list string := [".jpg"; ".jpeg"]%string.

(** [get_photo_datetime(photo) + photo_date_offset], the offset being the
    [datetime.timedelta] the interface passes or the default [None]: adding
    to [None], or adding [None], raises [TypeError].  The sum is taken in
    the integers: the [OverflowError] of a sum that leaves the years 1 to
    9999 is not part of this function; [in_datetime_range], below, is the
    range of sums in which it cannot occur. *)
Definition add_offset (dt : option datetime) (offset : option timedelta)
  : result datetime :=
  match dt, offset with
  | Some d, Some o => Ok (d + o)
  | _, _ => Raise TypeError
  end.

(** [photodt < mindt or photodt > maxdt]; a datetime does not compare with
    the NaN of an empty column. *)
Definition out_of_bounds (photodt : datetime) (mindt maxdt : option datetime)
  : result bool :=
  match mindt with
  | None => Raise TypeError
  | Some lo =>
      if photodt <? lo then Ok true
      else match maxdt with
           | None => Raise TypeError
           | Some hi => Ok (hi <? photodt)
           end
  end.

(** The [try] block that deletes the old coordinates: [del] raises on an
    attribute that is absent, and the exception is printed. *)
Definition delete_location (photo : Image) : Image * bool :=
  match gps_latitude photo with
  | None => (photo, false)
  | Some _ =>
      let photo := set_gps_latitude None photo in
      match gps_longitude photo with
      | None => (photo, false)
      | Some _ => (set_gps_longitude None photo, true)
      end
  end.

Definition hemi_ref (pos neg : string) (hemi : Z) : string :=
  if hemi =? 1 then pos else neg.

(** The [with open(photo_path, "wb")] block. *)
Definition write_location (overwrite : bool) (photo_path : string)
    (photo : Image) (photolat photolon : float) : IO unit :=
  _ ← open_wb photo_path;
  photo ← (if overwrite
              && (bool_decide (is_Some (gps_latitude photo))
                  || bool_decide (is_Some (gps_longitude photo)))
           then
             let '(photo', deleted) := delete_location photo in
             if deleted then mret photo'
             else _ ← print (DeleteFailed photo_path); mret photo'
           else mret photo);
  '(lat_d, lat_m, lat_s, lat_hemi) ← lift (deg_to_dms photolat);
  let photo := set_gps_latitude_ref (Some (hemi_ref "N" "S" lat_hemi)) photo in
  let photo := set_gps_latitude (Some (lat_d, lat_m, lat_s)) photo in
  '(lon_d, lon_m, lon_s, lon_hemi) ← lift (deg_to_dms photolon);
  let photo := set_gps_longitude_ref (Some (hemi_ref "E" "W" lon_hemi)) photo in
  let photo := set_gps_longitude (Some (lon_d, lon_m, lon_s)) photo in
  write_photo photo_path photo.

(** The two interpolations of the tagger at one query time. *)
Definition interpolate (points_df : DataFrame) (photots : float)
  : result (float * float) :=
  ts ← column Timestamp points_df;
  lats ← column Latitude points_df;
  photolat ← np_interp photots ts lats;
  ts ← column Timestamp points_df;
  lons ← column Longitude points_df;
  photolon ← np_interp photots ts lons;
  Ok (photolat, photolon).

(** The body of the loop of [tag_photos], for one path. *)
Definition tag_photo `{Runtime} (points_df : DataFrame)
    (mindt maxdt : option datetime) (photo_date_offset : option timedelta)
    (overwrite : bool) (photo_path : string) : IO unit :=
  photo ← load_photo photo_path;
  if negb (photo_has_datetime photo) then print (SkipNoTime photo_path)
  else if photo_has_lat_long photo && negb overwrite
  then print (SkipHasLocation photo_path)
  else
    dt ← get_photo_datetime photo;
    photodt ← lift (add_offset dt photo_date_offset);
    let photots := timestamp photodt in
    out ← lift (out_of_bounds photodt mindt maxdt);
    if out : bool then
      print (SkipOutOfBounds photo_path photodt
               (default 0 mindt) (default 0 maxdt))
    else
      _ ← print (AddingLocation photo_path);
      '(photolat, photolon) ← lift (interpolate points_df photots);
      write_location overwrite photo_path photo photolat photolon.

Fixpoint tag_loop `{Runtime} (points_df : DataFrame)
    (mindt maxdt : option datetime) (photo_date_offset : option timedelta)
    (overwrite : bool) (paths : list string) : IO unit :=
  match paths with
  | [] => mret tt
  | photo_path :: rest =>
      _ ← tag_photo points_df mindt maxdt photo_date_offset overwrite photo_path;
      tag_loop points_df mindt maxdt photo_date_offset overwrite rest
  end.

Definition tag_photos `{Runtime} (points_df : DataFrame)
    (photo_paths : list string) (photo_date_offset : option timedelta)
    (valid_filetypes : list string) (overwrite : bool) : IO unit :=
  dts ← lift (column Datetime points_df);
  let mindt := series_min dts in
  dts ← lift (column Datetime points_df);
  let maxdt := series_max dts in
  let paths := filter (fun f => valid_path valid_filetypes f = true) photo_paths in
  tag_loop points_df mindt maxdt photo_date_offset overwrite paths.

(** ** The drop handler

    [generic_drag] reads the data of a drop event, a space-separated list
    of paths in which a path that contains spaces is wrapped in braces, and
    hands the paths to [process_paths]. *)

Module Drag.

(** [data.split(" ")]: one part per space, an empty part between two spaces
    in a row; never an empty list. *)
Fixpoint split_space (s : string) : list string :=
  match s with
  | EmptyString => [EmptyString]
  | String c rest =>
      if Ascii.eqb c " " then EmptyString :: split_space rest
      else match split_space rest with
           | [] => [String c EmptyString]
           | part :: parts => String c part :: parts
           end
  end.

(** [" ".join(parts)]. *)
Fixpoint join_space (parts : list string) : string :=
  match parts with
  | [] => EmptyString
  | [part] => part
  | part :: rest => part +:+ " " +:+ join_space rest
  end.

(** [s[-1]], with [None] for the [IndexError] of the empty string. *)
Fixpoint last_char (s : string) : option ascii :=
  match s with
  | EmptyString => None
  | String c EmptyString => Some c
  | String _ rest => last_char rest
  end.

(** [s[:-1]] and [s[1:-1]]. *)
Fixpoint drop_last (s : string) : string :=
  match s with
  | EmptyString => EmptyString
  | String _ EmptyString => EmptyString
  | String c rest => String c (drop_last rest)
  end.

Definition strip_ends (s : string) : string :=
  match s with
  | EmptyString => EmptyString
  | String _ rest => drop_last rest
  end.

(** The [while i < len(parts)] loop, from the part at position [i] on.  A
    part that does not start with a brace is a path.  A part that does
    opens a group: the inner loop looks, from that part on, for the first
    part that ends with a closing brace, joins the parts up to it, strips
    the two braces, and the outer loop goes on after it; when no part
    closes the group, the outer loop goes on with the next part. *)
Fixpoint drag_paths (parts : list string) : result (list string) :=
  match parts with
  | [] => Ok []
  | part :: rest =>
      match String.get 0 part with
      | None => Raise IndexError
      | Some c =>
          if negb (Ascii.eqb c "{") then
            paths ← drag_paths rest; Ok (part :: paths)
          else
            match last_char part with
            | None => Raise IndexError
            | Some l =>
                if Ascii.eqb l "}" then
                  paths ← drag_paths rest;
                  Ok (strip_ends (join_space [part]) :: paths)
                else
                  (fix scan (group ps : list string) {struct ps}
                     : result (list string) :=
                     match ps with
                     | [] => drag_paths rest
                     | p :: ps' =>
                         match last_char p with
                         | None => Raise IndexError
                         | Some l =>
                             if Ascii.eqb l "}" then
                               paths ← drag_paths ps';
                               Ok (strip_ends (join_space (rev (p :: group)))
                                     :: paths)
                             else scan (p :: group) ps'
                         end
                     end) [part] rest
            end
      end
  end.

(** The list of paths [generic_drag] passes to [process_paths]. *)
Definition generic_drag (data : string) : result (list string) :=
  drag_paths (split_space data).

End Drag.

(** ** Stripping the location tags

    [test_strip_locations(folder)] deletes the four location tags of every
    file of a folder.  The listing of the folder is the machine's; what the
    function prints is a list of its own lines. *)

Module Strip.

Inductive gps_attr : Type :=
| Attr_latitude_ref
| Attr_latitude
| Attr_longitude_ref
| Attr_longitude.

(** A line printed by [print(e)]: the failure of one [del], or the failure
    of the photo as a whole. *)
Inductive line : Type :=
| DelFailed (attr : gps_attr)
| PhotoFailed (e : exn).

(** [os.path.join(a, b)] (the POSIX flavour). *)
Definition path_join (a b : string) : string :=
  match String.get 0 b with
  | Some "/"%char => b
  | _ =>
      match Drag.last_char a with
      | None => b
      | Some "/"%char => a +:+ b
      | Some _ => a +:+ "/" +:+ b
      end
  end.

Definition has_attr (attr : gps_attr) (photo : Image) : bool :=
  match attr with
  | Attr_latitude_ref => bool_decide (is_Some (gps_latitude_ref photo))
  | Attr_latitude => bool_decide (is_Some (gps_latitude photo))
  | Attr_longitude_ref => bool_decide (is_Some (gps_longitude_ref photo))
  | Attr_longitude => bool_decide (is_Some (gps_longitude photo))
  end.

Definition clear_attr (attr : gps_attr) (photo : Image) : Image :=
  match attr with
  | Attr_latitude_ref => set_gps_latitude_ref None photo
  | Attr_latitude => set_gps_latitude None photo
  | Attr_longitude_ref => set_gps_longitude_ref None photo
  | Attr_longitude => set_gps_longitude None photo
  end.

(** [try: del photo.attr / except Exception as e: print(e)]. *)
Definition try_del (attr : gps_attr) (st : Image * list line)
  : Image * list line :=
  let '(photo, out) := st in
  if has_attr attr photo then (clear_attr attr photo, out)
  else (photo, out ++ [DelFailed attr]).

(** The four deletions, in the order of the source. *)
Definition strip_image (photo : Image) (out : list line) : Image * list line :=
  try_del Attr_longitude
    (try_del Attr_longitude_ref
       (try_del Attr_latitude
          (try_del Attr_latitude_ref (photo, out)))).

(** The body of the loop: the photo is read, its file opened for writing,
    the tags deleted and the image written back; an exception on the way
    (here, of the reading) is printed and the loop goes on. *)
Definition strip_photo (photo_path : string)
    (st : gmap string file * list line) : gmap string file * list line :=
  let '(fs, out) := st in
  match (load_photo photo_path (World fs [])).1 with
  | Raise e => (fs, out ++ [PhotoFailed e])
  | Ok photo =>
      let '(photo', out') := strip_image photo out in
      (<[photo_path := ImageFile photo']> (<[photo_path := EmptyFile]> fs), out')
  end.

Definition test_strip_locations (listdir : string -> result (list string))
    (folder : string) (fs : gmap string file)
  : result unit * (gmap string file * list line) :=
  match listdir folder with
  | Raise e => (Raise e, (fs, []))
  | Ok names =>
      let paths := map (path_join folder) names in
      (Ok tt, fold_left (fun st p => strip_photo p st) paths (fs, []))
  end.

End Strip.

(** ** Notions the properties are stated with *)

(** The recombination the specification names [dms_to_decimal]:
    hemisphere times (degrees + minutes/60 + seconds/3600).  The program has
    no such function; it is the inverse a reader of the tags applies. *)
Definition dms_to_decimal (r : Z * Z * float * Z) : float :=
  let '(degs, mins, secs, hemi) := r in
  (PyFloat.of_Z hemi
   * (PyFloat.of_Z degs + PyFloat.of_Z mins / 60 + secs / 3600))%float.

(** A track point without a [time] child, a [lon] or a [lat] attribute. *)
Definition lacks_field (elm : trkpt) : Prop :=
  time_elements elm = [] \/ attr_lon elm = None \/ attr_lat elm = None.

(** The image as the tagger leaves it: the capture time kept, the four
    location tags set from the two conversions. *)
Definition with_location (photo : Image) (lat lon : Z * Z * float * Z) : Image :=
  let '(lat_d, lat_m, lat_s, lat_hemi) := lat in
  let '(lon_d, lon_m, lon_s, lon_hemi) := lon in
  MkImage (datetime_original photo)
          (Some (lat_d, lat_m, lat_s)) (Some (lon_d, lon_m, lon_s))
          (Some (hemi_ref "N" "S" lat_hemi)) (Some (hemi_ref "E" "W" lon_hemi)).

(** What the deletion block prints. *)
Definition delete_report (overwrite : bool) (photo_path : string) (photo : Image)
  : list message :=
  if overwrite
     && (bool_decide (is_Some (gps_latitude photo))
         || bool_decide (is_Some (gps_longitude photo)))
     && negb (snd (delete_location photo))
  then [DeleteFailed photo_path] else [].

(** How the content of one path may differ after the tagger has run: it is
    the same, or it was an image and is now either empty or an image with
    the capture time it had. *)
Definition evolves (f f' : option file) : Prop :=
  f' = f
  \/ exists photo,
       f = Some (ImageFile photo)
       /\ (f' = Some EmptyFile
           \/ exists photo',
                f' = Some (ImageFile photo')
                /\ datetime_original photo' = datetime_original photo).

(** A content on which an iteration of the tagger, without the overwrite
    flag, returns after one printed line and with the files as they were. *)
Definition quiet `{Runtime} (points_df : DataFrame)
    (mindt maxdt : option datetime) (offset : option timedelta)
    (f : option file) : Prop :=
  forall (photo_path : string) (w : world),
    files w !! photo_path = f ->
    exists m,
      tag_photo points_df mindt maxdt offset false photo_path w
      = (Ok tt, World (files w) (console w ++ [m])).

(** The row the loader makes of a well-formed track point: the text of the
    first [time] child and what it parses to, the two attributes converted. *)
Definition row_of_point `{Runtime} (elm : trkpt) (r : row) : Prop :=
  exists (others : list (option string)) (lon_s lat_s : string),
    time_elements elm = Some (Time r) :: others
    /\ strptime_gpx (Time r) = Some (Datetime r)
    /\ Timestamp r = timestamp (Datetime r)
    /\ attr_lon elm = Some lon_s /\ float_of_string lon_s = Some (Longitude r)
    /\ attr_lat elm = Some lat_s /\ float_of_string lat_s = Some (Latitude r).

(** Does the character occur in the string?  Is the string made of dots
    only? *)
Fixpoint has_char (c : ascii) (s : string) : bool :=
  match s with
  | EmptyString => false
  | String a rest => Ascii.eqb a c || has_char c rest
  end.

Fixpoint only_dots (s : string) : bool :=
  match s with
  | EmptyString => true
  | String a rest => Ascii.eqb a "."%char && only_dots rest
  end.

(** The inner loop of the drop handler on its own: the parts are looked at
    in turn for one that ends with a closing brace; [group] holds the parts
    already passed, last first. *)
Fixpoint close_group (group ps : list string)
  : result (option (string * list string)) :=
  match ps with
  | [] => Ok None
  | p :: ps' =>
      match Drag.last_char p with
      | None => Raise IndexError
      | Some l =>
          if Ascii.eqb l "}" then
            Ok (Some (Drag.strip_ends (Drag.join_space (rev (p :: group))), ps'))
          else close_group (p :: group) ps'
      end
  end.

(** No two spaces in a row. *)
Fixpoint no_double_space (s : string) : bool :=
  match s with
  | EmptyString => true
  | String c rest =>
      match rest with
      | String d _ => negb (Ascii.eqb c " " && Ascii.eqb d " ")
      | EmptyString => true
      end && no_double_space rest
  end.

(** A path the drop format can carry: not empty, without braces, without
    two spaces in a row. *)
Definition droppable (path : string) : Prop :=
  path <> EmptyString
  /\ has_char "{" path = false /\ has_char "}" path = false
  /\ no_double_space path = true.

(** A path as it stands in the data of a drop, and the data for a list of
    paths. *)
Definition drop_item (path : string) : string :=
  if has_char " " path then "{" +:+ path +:+ "}" else path.

Definition drop_data (paths : list string) : string :=
  Drag.join_space (map drop_item paths).

(** An image without its four location tags. *)
Definition stripped (photo : Image) : Image :=
  MkImage (datetime_original photo) None None None None.

(** What stripping makes of the content of a path: an image loses its four
    tags, what cannot be read stays as it is. *)
Definition strip_file (f : option file) : option file :=
  match f with
  | Some (ImageFile photo) => Some (ImageFile (stripped photo))
  | Some EmptyFile => Some (ImageFile (stripped no_exif))
  | Some CorruptFile => Some CorruptFile
  | None => None
  end.

(** ** A runtime to compute with

    An instance of [Runtime] for a machine whose local zone is UTC.  It reads
    the canonical spellings only (two-digit fields, a zone written [Z],
    [+HHMM] or [+HH:MM], decimal literals that convert without a second
    rounding) and is used to run the program on concrete files; the
    theorems of the general development hold for every runtime. *)

Module Utc.

Definition digit (c : ascii) : option Z :=
  let n := Z.of_nat (nat_of_ascii c) in
  if (48 <=? n) && (n <=? 57) then Some (n - 48) else None.

Fixpoint digits_from (acc : Z) (cs : list ascii) : option Z :=
  match cs with
  | [] => Some acc
  | c :: rest => d ← digit c; digits_from (10 * acc + d) rest
  end.

Definition number (cs : list ascii) : option Z :=
  match cs with
  | [] => None
  | _ => digits_from 0 cs
  end.

Definition is_leap (y : Z) : bool :=
  (y mod 4 =? 0) && (negb (y mod 100 =? 0) || (y mod 400 =? 0)).

Definition days_in_month (y m : Z) : Z :=
  if m =? 2 then (if is_leap y then 29 else 28)
  else if (m =? 4) || (m =? 6) || (m =? 9) || (m =? 11) then 30
  else 31.

(** Days from 1970-01-01 to the given day of the proleptic Gregorian
    calendar. *)
Definition days_from_civil (y m d : Z) : Z :=
  let y' := if m <=? 2 then y - 1 else y in
  let era := y' / 400 in
  let yoe := y' - era * 400 in
  let doy := (153 * (if 2 <? m then m - 3 else m + 9) + 2) / 5 + d - 1 in
  let doe := yoe * 365 + yoe / 4 - yoe / 100 + doy in
  era * 146097 + doe - 719468.

Definition civil_seconds (y mo d h mi s : Z) : option Z :=
  if (1 <=? y) && (1 <=? mo) && (mo <=? 12) && (1 <=? d)
     && (d <=? days_in_month y mo) && (h <? 24) && (mi <? 60) && (s <? 60)
  then Some (days_from_civil y mo d * 86400 + h * 3600 + mi * 60 + s)
  else None.

(** [YYYY?MM?DD?HH:MM:SS] with the given separators; the seconds since the
    epoch and what follows the seconds. *)
Definition date_time (date_sep mid_sep : ascii) (cs : list ascii)
  : option (Z * list ascii) :=
  match cs with
  | y1 :: y2 :: y3 :: y4 :: s1 :: m1 :: m2 :: s2 :: d1 :: d2 :: s3
      :: h1 :: h2 :: s4 :: i1 :: i2 :: s5 :: e1 :: e2 :: rest =>
      if Ascii.eqb s1 date_sep && Ascii.eqb s2 date_sep
         && Ascii.eqb s3 mid_sep && Ascii.eqb s4 ":" && Ascii.eqb s5 ":"
      then
        y ← number [y1; y2; y3; y4];
        mo ← number [m1; m2];
        d ← number [d1; d2];
        h ← number [h1; h2];
        mi ← number [i1; i2];
        s ← number [e1; e2];
        secs ← civil_seconds y mo d h mi s;
        Some (secs, rest)
      else None
  | _ => None
  end.

(** The offset from UTC, in seconds, of a zone designator. *)
Definition zone (cs : list ascii) : option Z :=
  let hhmm (sign : Z) h1 h2 m1 m2 :=
    h ← number [h1; h2];
    m ← number [m1; m2];
    if (h <? 24) && (m <? 60) then Some (sign * (h * 3600 + m * 60)) else None in
  let sign_of (c : ascii) : option Z :=
    if Ascii.eqb c "+" then Some 1 else if Ascii.eqb c "-" then Some (-1) else None in
  match cs with
  | [z] => if Ascii.eqb z "Z" then Some 0 else None
  | [sg; h1; h2; m1; m2] => sign ← sign_of sg; hhmm sign h1 h2 m1 m2
  | [sg; h1; h2; c; m1; m2] =>
      if Ascii.eqb c ":" then sign ← sign_of sg; hhmm sign h1 h2 m1 m2 else None
  | _ => None
  end.

Definition strptime_gpx (s : string) : option datetime :=
  '(secs, rest) ← date_time "-" "T" (list_ascii_of_string s);
  off ← zone rest;
  Some ((secs - off) * 1000000).

Definition strptime_exif (s : string) : option datetime :=
  '(secs, rest) ← date_time ":" " " (list_ascii_of_string s);
  match rest with
  | [] => Some (secs * 1000000)
  | _ => None
  end.

(** The digits before and after the first dot. *)
Fixpoint split_dot (cs : list ascii) : list ascii * option (list ascii) :=
  match cs with
  | [] => ([], None)
  | c :: rest =>
      if Ascii.eqb c "." then ([], Some rest)
      else let '(a, b) := split_dot rest in (c :: a, b)
  end.

Definition unsigned_literal (cs : list ascii) : option float :=
  let '(int_part, frac) := split_dot cs in
  let frac_part := default [] frac in
  match int_part ++ frac_part with
  | [] => None
  | ds =>
      n ← digits_from 0 ds;
      let k := Z.of_nat (length frac_part) in
      if (n <? 2 ^ 53) && (k <=? 22)
      then Some (PyFloat.of_Z n / PyFloat.of_Z (10 ^ k))%float
      else None
  end.

Definition float_of_string (s : string) : option float :=
  match list_ascii_of_string s with
  | c :: rest =>
      if Ascii.eqb c "-" then f ← unsigned_literal rest; Some (- f)%float
      else if Ascii.eqb c "+" then unsigned_literal rest
      else unsigned_literal (c :: rest)
  | [] => None
  end.

Definition timestamp (dt : datetime) : float :=
  (PyFloat.of_Z (dt / 1000000) + PyFloat.of_Z (dt mod 1000000) / 1000000)%float.

Definition runtime : Runtime :=
  Build_Runtime strptime_gpx strptime_exif float_of_string timestamp.

End Utc.

(** ** The range of Python's datetimes *)

(** The first microsecond of a year. *)
Definition year_start (y : Z) : datetime :=
  Utc.days_from_civil y 1 1 * 86400 * 1000000.

(** A [datetime] holds the years 1 to 9999: line 140 raises [OverflowError]
    when the sum of capture time and offset leaves them, and line 141 turns
    the sum into local seconds, looking up to two days around it.  A sum
    within the years 2 to 9998 is clear of both ends. *)
Definition in_datetime_range (d : datetime) : Prop :=
  year_start 2 <= d < year_start 9999.

(** ** Concrete tracks, photos and disks *)

Module Sample.

#[local] Existing Instance Utc.runtime.

(** A track log of two points, one hundred seconds apart. *)
Definition pt_start : trkpt :=
  Trkpt [Some "2024-01-01T00:00:00Z"] (Some "0") (Some "0").
Definition pt_end : trkpt :=
  Trkpt [Some "2024-01-01T00:01:40Z"] (Some "20") (Some "10").
(** A point without its [lat] attribute, and one without a [time] child. *)
Definition pt_no_lat : trkpt :=
  Trkpt [Some "2024-01-01T00:00:50Z"] (Some "10") None.
Definition pt_no_time : trkpt :=
  Trkpt [] (Some "10") (Some "5").

Definition track : DataFrame :=
  Frame [ Row "2024-01-01T00:00:00Z" 1704067200000000 1704067200 0 0;
          Row "2024-01-01T00:01:40Z" 1704067300000000 1704067300 10 20 ].

Definition old_gps (p : Image) : Image :=
  MkImage (datetime_original p) (Some (1, 2, 3%float)) (Some (4, 5, 6%float))
          (Some "S") (Some "W").

(** Photos taken before, in the middle of, at the end of and after the
    track; one without a capture time and one whose capture time does not
    parse. *)
Definition photo_at (time : string) : Image :=
  MkImage (Some time) None None None None.
Definition photo_before : Image := photo_at "2023:12:31 23:59:59".
Definition photo_mid : Image := photo_at "2024:01:01 00:00:50".
Definition photo_end : Image := photo_at "2024:01:01 00:01:40".
Definition photo_after : Image := photo_at "2024:01:01 00:01:41".
Definition photo_bad_time : Image := photo_at "yesterday".

(** A photo in the middle of the track that carries a latitude and none
    of the other three location tags. *)
Definition photo_lat_only : Image :=
  MkImage (Some "2024:01:01 00:00:50") (Some (1, 2, 3%float)) None None None.

(** The same photo taken a second before the track starts, and with no
    capture time at all. *)
Definition photo_lat_only_before : Image :=
  MkImage (Some "2023:12:31 23:59:59") (Some (1, 2, 3%float)) None None None.
Definition photo_lat_only_no_time : Image :=
  MkImage None (Some (1, 2, 3%float)) None None None.

Definition track_times : list datetime :=
  [1704067200000000; 1704067300000000].

Definition disk (l : list (string * file)) : world :=
  World (list_to_map l) [].

(** The sample track with latitudes that are not numbers. *)
Definition track_nan : DataFrame :=
  Frame [ Row "2024-01-01T00:00:00Z" 1704067200000000 1704067200 nan 0;
          Row "2024-01-01T00:01:40Z" 1704067300000000 1704067300 nan 20 ].

(** A photo in the middle of the track that carries an old longitude and
    none of the other three location tags. *)
Definition photo_lon_only : Image :=
  MkImage (Some "2024:01:01 00:00:50") None (Some (4, 5, 6%float)) None None.

(** A machine with one folder, [photos], of two files. *)
Definition listdir (folder : string) : result (list string) :=
  if String.eqb folder "photos" then Ok ["a.jpg"; "b.jpg"]%string
  else Raise FileNotFoundError.

Definition photos : gmap string file :=
  list_to_map [("photos/a.jpg", ImageFile (old_gps photo_mid));
               ("photos/b.jpg", CorruptFile);
               ("c.jpg", ImageFile (old_gps photo_end))]%string.

End Sample.

(** * Properties *)

(** ** Coordinate conversion *)

(** X1: whenever the conversion returns, the degrees are not negative and
    the hemisphere is [+1] or [-1]; it is [+1] only when the whole degrees
    are positive: the sign of the input is read off the truncated degrees,
    where a value between 0 and 1 has left no trace. *)
Lemma deg_to_dms_hemi (deg : float) (degs mins : Z) (secs : float) (hemi : Z) :
  deg_to_dms deg = Ok (degs, mins, secs, hemi) ->
  0 <= degs /\ (hemi = 1 /\ 0 < degs \/ hemi = -1).
Proof.
  unfold deg_to_dms.
  destruct (PyFloat.divmod _ 60) as [[m1 s1]|]; cbv [mbind result_bind];
    [|discriminate].
  destruct (PyFloat.divmod m1 60) as [[d2 m2]|]; [|discriminate].
  destruct (PyFloat.to_int _) as [dz|]; [|discriminate].
  destruct (PyFloat.to_int m2) as [mz|]; [|discriminate].
  intros E; injection E as <- _ _ <-.
  destruct (Z.ltb_spec 0 dz); lia.
Qed.

(** C1 (the program departs from the claim): at 0.0 and at 0.5 degrees, both
    non-negative, [deg_to_dms] returns hemisphere [-1]; at -5.5 it returns
    degrees 5, minutes 30, seconds 0 and hemisphere [-1] as expected. *)
Theorem deg_to_dms_hemisphere_below_one_degree :
  deg_to_dms 0%float = Ok (0, 0, 0%float, -1)
  /\ deg_to_dms 0.5%float = Ok (0, 30, 0%float, -1)
  /\ deg_to_dms (-5.5)%float = Ok (5, 30, 0%float, -1).
Proof. repeat split; vm_compute; reflexivity. Qed.

(** C6 (the program departs from the claim): the conversion of 0.5 degrees
    recombines to -0.5, and that of 1.5 degrees to 1.5. *)
Theorem deg_to_dms_round_trip_below_one_degree :
  dms_to_decimal <$> deg_to_dms 0.5%float = Ok (-0.5)%float
  /\ dms_to_decimal <$> deg_to_dms 1.5%float = Ok 1.5%float.
Proof. split; vm_compute; reflexivity. Qed.

(** ** Interpolation *)

(** C5: on the track of the two points (t=0, lat=0, lon=0) and (t=100,
    lat=10, lon=20), whatever their other columns hold, the tagger's two
    interpolations give (5, 10) at time 50, (0, 0) at time 0 and (10, 20) at
    time 100. *)
Theorem interpolate_two_points (time0 time1 : string) (dt0 dt1 : datetime) :
  let track := Frame [Row time0 dt0 0 0 0; Row time1 dt1 100 10 20] in
  interpolate track 50 = Ok (5%float, 10%float)
  /\ interpolate track 0 = Ok (0%float, 0%float)
  /\ interpolate track 100 = Ok (10%float, 20%float).
Proof. repeat split; vm_compute; reflexivity. Qed.

(** ** The general development, for every runtime *)

Ltac io_unfold :=
  cbv [mbind mret IO_bind IO_ret result_bind result_ret lift print
       load_photo open_wb write_photo get_photo_datetime] in *.

Section General.

Context `{R : Runtime}.

Lemma extract_point_lacks_field (elm : trkpt) :
  lacks_field elm -> exists e, extract_point elm = Raise e.
Proof.
  unfold extract_point, py_float; cbv [mbind result_bind].
  intros [Ht | [Hlon | Hlat]].
  - rewrite Ht; eauto.
  - destruct (time_elements elm) as [|[s|] others]; eauto.
    destruct (strptime_gpx s); eauto.
    rewrite Hlon; eauto.
  - destruct (time_elements elm) as [|[s|] others]; eauto.
    destruct (strptime_gpx s); eauto.
    destruct (attr_lon elm) as [lon_s|]; eauto.
    destruct (float_of_string lon_s); eauto.
    rewrite Hlat; eauto.
Qed.

Lemma extract_rows_lacks_field (pre post : list trkpt) (bad : trkpt) :
  lacks_field bad -> exists e, extract_rows (pre ++ bad :: post) = Raise e.
Proof.
  intros Hbad. induction pre as [|elm pre IH]; simpl.
  - destruct (extract_point_lacks_field bad Hbad) as [e ->].
    exists e; reflexivity.
  - destruct IH as [e ->].
    destruct (extract_point elm); cbv [mbind result_bind]; eauto.
Qed.

Lemma fold_min_le (l : list datetime) (x : datetime) : fold_left Z.min l x <= x.
Proof.
  revert x; induction l as [|y l IH]; intros x; simpl; [lia|].
  specialize (IH (Z.min x y)); lia.
Qed.

Lemma fold_max_ge (l : list datetime) (x : datetime) : x <= fold_left Z.max l x.
Proof.
  revert x; induction l as [|y l IH]; intros x; simpl; [lia|].
  specialize (IH (Z.max x y)); lia.
Qed.

Lemma series_min_le_max (dts : list datetime) (lo hi : datetime) :
  series_min dts = Some lo -> series_max dts = Some hi -> lo <= hi.
Proof.
  destruct dts as [|x rest]; [discriminate|]; simpl.
  intros [= <-] [= <-].
  pose proof (fold_min_le rest x); pose proof (fold_max_ge rest x); lia.
Qed.

(** The write block, once the two conversions succeed. *)
Lemma write_location_ok (overwrite : bool) (photo_path : string)
    (photo : Image) (photolat photolon : float)
    (lat lon : Z * Z * float * Z) (w : world) :
  deg_to_dms photolat = Ok lat ->
  deg_to_dms photolon = Ok lon ->
  write_location overwrite photo_path photo photolat photolon w
  = (Ok tt,
     World (<[photo_path := ImageFile (with_location photo lat lon)]> (files w))
           (console w ++ delete_report overwrite photo_path photo)).
Proof.
  intros Hlat Hlon.
  destruct lat as [[[lat_d lat_m] lat_s] lat_h].
  destruct lon as [[[lon_d lon_m] lon_s] lon_h].
  unfold write_location, delete_report, with_location.
  io_unfold. rewrite Hlat, Hlon.
  destruct overwrite, photo as [t [la|] [lo|] lr lor]; cbn.
  all: rewrite ?insert_insert_eq, ?app_nil_r; reflexivity.
Qed.

(** A photo that has a capture time which parses, and that the location
    check lets through, reaches the bounds check; from there on the
    iteration is decided by that check and by the two interpolations. *)
Lemma tag_photo_reaches_bounds (points_df : DataFrame)
    (mindt maxdt : option datetime) (off : timedelta) (overwrite : bool)
    (photo_path : string) (w : world) (photo : Image) (s : string)
    (dt : datetime) :
  files w !! photo_path = Some (ImageFile photo) ->
  datetime_original photo = Some s ->
  strptime_exif s = Some dt ->
  photo_has_lat_long photo && negb overwrite = false ->
  tag_photo points_df mindt maxdt (Some off) overwrite photo_path w
  = match out_of_bounds (dt + off) mindt maxdt with
    | Raise e => (Raise e, w)
    | Ok true =>
        (Ok tt,
         World (files w)
               (console w ++ [SkipOutOfBounds photo_path (dt + off)
                                (default 0 mindt) (default 0 maxdt)]))
    | Ok false =>
        let w1 := World (files w) (console w ++ [AddingLocation photo_path]) in
        match interpolate points_df (timestamp (dt + off)) with
        | Raise e => (Raise e, w1)
        | Ok (photolat, photolon) =>
            write_location overwrite photo_path photo photolat photolon w1
        end
    end.
Proof.
  intros Hfile Htime Hparse Hloc.
  unfold tag_photo, photo_has_datetime. io_unfold.
  rewrite Hfile, Htime, Hloc, Hparse. cbn [negb add_offset].
  destruct (out_of_bounds (dt + off) mindt maxdt) as [[|]|e]; try reflexivity.
  destruct (interpolate points_df (timestamp (dt + off))) as [[la lo]|e];
    reflexivity.
Qed.

(** Whatever an iteration does, it leaves the files alone unless the photo
    has a capture time that parses, an offset was given, and the adjusted
    time lies between the two bounds. *)
Lemma tag_photo_written (points_df : DataFrame)
    (mindt maxdt : option datetime) (offset : option timedelta)
    (overwrite : bool) (photo_path : string) (w w' : world) (r : result unit) :
  tag_photo points_df mindt maxdt offset overwrite photo_path w = (r, w') ->
  files w' = files w
  \/ exists photo s dt off lo hi,
       files w !! photo_path = Some (ImageFile photo)
       /\ datetime_original photo = Some s
       /\ strptime_exif s = Some dt
       /\ offset = Some off
       /\ mindt = Some lo /\ maxdt = Some hi
       /\ lo <= dt + off <= hi.
Proof.
  unfold tag_photo, photo_has_datetime. io_unfold.
  destruct (files w !! photo_path) as [[photo| |]|] eqn:Hfile;
    try (intros [= <- <-]; left; reflexivity).
  destruct (datetime_original photo) as [s|] eqn:Htime; cbn [negb];
    [|intros [= <- <-]; left; reflexivity].
  destruct (photo_has_lat_long photo && negb overwrite);
    [intros [= <- <-]; left; reflexivity|].
  destruct (strptime_exif s) as [dt|] eqn:Hparse; cbn [add_offset];
    [|intros [= <- <-]; left; reflexivity].
  destruct offset as [off|]; [|intros [= <- <-]; left; reflexivity].
  unfold out_of_bounds.
  destruct mindt as [lo|]; [|intros [= <- <-]; left; reflexivity].
  destruct (Z.ltb_spec (dt + off) lo);
    [intros [= <- <-]; left; reflexivity|].
  destruct maxdt as [hi|]; [|intros [= <- <-]; left; reflexivity].
  destruct (Z.ltb_spec hi (dt + off));
    [intros [= <- <-]; left; reflexivity|].
  intros _. right. exists photo, s, dt, off, lo, hi.
  repeat split; auto.
Qed.

(** On a frame with its columns, [tag_photos] is the loop over the paths
    that pass the extension filter, between the least and the greatest
    [Datetime] of the track. *)
Lemma tag_photos_frame (rows : list row) (photo_paths : list string)
    (offset : option timedelta) (valid_filetypes : list string)
    (overwrite : bool) (w : world) :
  tag_photos (Frame rows) photo_paths offset valid_filetypes overwrite w
  = tag_loop (Frame rows) (series_min (map Datetime rows))
      (series_max (map Datetime rows)) offset overwrite
      (filter (fun f => valid_path valid_filetypes f = true) photo_paths) w.
Proof. reflexivity. Qed.

(** With no columns in the frame, [tag_photos] raises before it looks at any
    photo. *)
Lemma tag_photos_no_columns (photo_paths : list string)
    (offset : option timedelta) (valid_filetypes : list string)
    (overwrite : bool) (w : world) :
  tag_photos NoColumns photo_paths offset valid_filetypes overwrite w
  = (Raise KeyError, w).
Proof. reflexivity. Qed.

(** An iteration that returns hands its world to the next one. *)
Lemma tag_loop_continue (points_df : DataFrame) (mindt maxdt : option datetime)
    (offset : option timedelta) (overwrite : bool) (photo_path : string)
    (rest : list string) (w w' : world) :
  tag_photo points_df mindt maxdt offset overwrite photo_path w = (Ok tt, w') ->
  tag_loop points_df mindt maxdt offset overwrite (photo_path :: rest) w
  = tag_loop points_df mindt maxdt offset overwrite rest w'.
Proof.
  intros Hrun. cbn [tag_loop]. cbv [mbind IO_bind]. rewrite Hrun. reflexivity.
Qed.

(** An exception raised by one iteration ends the loop: the paths after it
    are not visited. *)
Lemma tag_loop_raise (points_df : DataFrame) (mindt maxdt : option datetime)
    (offset : option timedelta) (overwrite : bool) (photo_path : string)
    (rest : list string) (w w' : world) (e : exn) :
  tag_photo points_df mindt maxdt offset overwrite photo_path w = (Raise e, w') ->
  tag_loop points_df mindt maxdt offset overwrite (photo_path :: rest) w
  = (Raise e, w').
Proof.
  intros Hrun. cbn [tag_loop]. cbv [mbind IO_bind]. rewrite Hrun. reflexivity.
Qed.

(** A photo that cannot be opened or decoded makes its iteration raise. *)
Lemma tag_photo_load_fails (points_df : DataFrame)
    (mindt maxdt : option datetime) (offset : option timedelta)
    (overwrite : bool) (photo_path : string) (w : world) :
  files w !! photo_path = None \/ files w !! photo_path = Some CorruptFile ->
  exists e,
    tag_photo points_df mindt maxdt offset overwrite photo_path w = (Raise e, w).
Proof.
  unfold tag_photo. io_unfold. intros [-> | ->]; eexists; reflexivity.
Qed.

(** A capture time that is present and does not parse makes the iteration
    raise once the parse failure is printed. *)
Lemma tag_photo_unparsable_time (points_df : DataFrame)
    (mindt maxdt : option datetime) (offset : option timedelta)
    (overwrite : bool) (photo_path : string) (w : world) (photo : Image)
    (s : string) :
  files w !! photo_path = Some (ImageFile photo) ->
  datetime_original photo = Some s ->
  strptime_exif s = None ->
  photo_has_lat_long photo && negb overwrite = false ->
  tag_photo points_df mindt maxdt offset overwrite photo_path w
  = (Raise TypeError, World (files w) (console w ++ [DatetimeFailed photo])).
Proof.
  intros Hfile Htime Hparse Hloc.
  unfold tag_photo, photo_has_datetime. io_unfold.
  rewrite Hfile, Htime, Hloc, Hparse. reflexivity.
Qed.

(** Without an offset, a photo that reaches the addition of the offset
    makes the iteration raise, the files untouched. *)
Lemma tag_photo_no_offset (points_df : DataFrame)
    (mindt maxdt : option datetime) (overwrite : bool) (photo_path : string)
    (w : world) (photo : Image) (s : string) :
  files w !! photo_path = Some (ImageFile photo) ->
  datetime_original photo = Some s ->
  photo_has_lat_long photo && negb overwrite = false ->
  exists w',
    tag_photo points_df mindt maxdt None overwrite photo_path w
    = (Raise TypeError, w')
    /\ files w' = files w.
Proof.
  intros Hfile Htime Hloc.
  unfold tag_photo, photo_has_datetime. io_unfold.
  rewrite Hfile, Htime, Hloc.
  destruct (strptime_exif s); eexists; split; reflexivity.
Qed.

Lemma out_of_bounds_inside (photodt lo hi : datetime) :
  lo <= photodt <= hi -> out_of_bounds photodt (Some lo) (Some hi) = Ok false.
Proof.
  intros [Hlo Hhi]. unfold out_of_bounds.
  destruct (Z.ltb_spec photodt lo); [lia|].
  destruct (Z.ltb_spec hi photodt); [lia|reflexivity].
Qed.

Lemma out_of_bounds_outside (photodt lo hi : datetime) :
  photodt < lo \/ hi < photodt ->
  out_of_bounds photodt (Some lo) (Some hi) = Ok true.
Proof.
  intros Hout. unfold out_of_bounds.
  destruct (Z.ltb_spec photodt lo); [reflexivity|].
  destruct (Z.ltb_spec hi photodt); [reflexivity|lia].
Qed.

(** The write block only ever adds lines to the console. *)
Lemma write_location_console (overwrite : bool) (photo_path : string)
    (photo : Image) (photolat photolon : float) (w : world) :
  exists r w' rest,
    write_location overwrite photo_path photo photolat photolon w = (r, w')
    /\ console w' = console w ++ rest.
Proof.
  unfold write_location. io_unfold.
  destruct (deg_to_dms photolat) as [[[[? ?] ?] ?]|];
    destruct (deg_to_dms photolon) as [[[[? ?] ?] ?]|];
    destruct overwrite, photo as [t [la|] [lo|] lr lor];
    cbn; eexists _, _, _; (split; [reflexivity|]); cbn;
    first [reflexivity | symmetry; apply app_nil_r].
Qed.

(** The whole iteration for a photo that passes every check and whose
    coordinates convert. *)
Lemma tag_photo_tagged (points_df : DataFrame) (off : timedelta)
    (overwrite : bool) (photo_path : string) (w : world) (photo : Image)
    (s : string) (dt lo hi : datetime) (photolat photolon : float)
    (lat lon : Z * Z * float * Z) :
  files w !! photo_path = Some (ImageFile photo) ->
  datetime_original photo = Some s ->
  strptime_exif s = Some dt ->
  photo_has_lat_long photo && negb overwrite = false ->
  lo <= dt + off <= hi ->
  interpolate points_df (timestamp (dt + off)) = Ok (photolat, photolon) ->
  deg_to_dms photolat = Ok lat ->
  deg_to_dms photolon = Ok lon ->
  tag_photo points_df (Some lo) (Some hi) (Some off) overwrite photo_path w
  = (Ok tt,
     World (<[photo_path := ImageFile (with_location photo lat lon)]> (files w))
           ((console w ++ [AddingLocation photo_path])
            ++ delete_report overwrite photo_path photo)).
Proof.
  intros Hfile Htime Hparse Hloc Hin Hinterp Hlat Hlon.
  rewrite (tag_photo_reaches_bounds _ _ _ _ _ _ _ _ _ _ Hfile Htime Hparse Hloc).
  rewrite (out_of_bounds_inside _ _ _ Hin), Hinterp. cbv zeta.
  rewrite (write_location_ok _ _ _ _ _ _ _ _ Hlat Hlon). reflexivity.
Qed.

(** Deleting the coordinates of a photo that has all four tags succeeds
    and touches neither reference tag. *)
Lemma delete_location_all_four (photo : Image) :
  photo_has_lat_long photo = true ->
  delete_location photo
  = (MkImage (datetime_original photo) None None
             (gps_latitude_ref photo) (gps_longitude_ref photo), true).
Proof.
  destruct photo as [t [la|] [lo|] [lr|] [lor|]]; cbn; intros H;
    first [discriminate | reflexivity].
Qed.

(** C2, amended: when some track point of the log lacks its [lat]
    attribute, its [lon] attribute or its [time] child, the loader raises:
    it returns no track at all, whatever the other points are, and the
    interface that called it keeps a frame with no columns. *)
Theorem extract_points_lacks_field (pre post : list trkpt) (bad : trkpt) :
  lacks_field bad ->
  (exists e, extract_points (Document (pre ++ bad :: post)) = Raise e)
  /\ edit_gpx (Document (pre ++ bad :: post)) = NoColumns.
Proof.
  intros Hbad. unfold edit_gpx, extract_points.
  destruct (extract_rows_lacks_field pre post bad Hbad) as [e ->].
  cbv [mbind result_bind]. split; [exists e|]; reflexivity.
Qed.

(** C4, amended: an iteration of the tagger changes the files only if the
    photo has a capture time that parses and the adjusted time (capture time
    plus offset) lies within the bounds of the track, both included.
    For a photo that has such a time, that the location check lets through
    (it lacks one of the four tags, or the overwrite flag is set) and whose
    adjusted time is a datetime ([in_datetime_range]): an adjusted time
    strictly outside the bounds gives the out-of-bounds outcome with the
    files untouched, and an adjusted time exactly at either bound passes
    the check, the iteration announcing the tagging. *)
Theorem tag_photo_bounds_check (points_df : DataFrame) (dts : list datetime)
    (off : timedelta) (overwrite : bool) (photo_path : string) (w : world) :
  (forall r w',
      tag_photo points_df (series_min dts) (series_max dts) (Some off)
                overwrite photo_path w = (r, w') ->
      files w' = files w
      \/ exists photo s dt lo hi,
           files w !! photo_path = Some (ImageFile photo)
           /\ datetime_original photo = Some s
           /\ strptime_exif s = Some dt
           /\ series_min dts = Some lo /\ series_max dts = Some hi
           /\ lo <= dt + off <= hi)
  /\ (forall photo s dt lo hi,
        files w !! photo_path = Some (ImageFile photo) ->
        datetime_original photo = Some s ->
        strptime_exif s = Some dt ->
        series_min dts = Some lo ->
        series_max dts = Some hi ->
        photo_has_lat_long photo && negb overwrite = false ->
        in_datetime_range (dt + off) ->
        (dt + off < lo \/ hi < dt + off ->
         tag_photo points_df (series_min dts) (series_max dts) (Some off)
                   overwrite photo_path w
         = (Ok tt,
            World (files w)
                  (console w ++ [SkipOutOfBounds photo_path (dt + off) lo hi])))
        /\ (dt + off = lo \/ dt + off = hi ->
            exists r w' rest,
              tag_photo points_df (series_min dts) (series_max dts) (Some off)
                        overwrite photo_path w = (r, w')
              /\ console w' = console w ++ AddingLocation photo_path :: rest)).
Proof.
  split.
  - intros r w' Hrun. apply tag_photo_written in Hrun.
    destruct Hrun as [Hsame | (photo & s & dt & off' & lo & hi & Hfile & Htime
                                & Hparse & Hoff & Hmin & Hmax & Hin)].
    + left. exact Hsame.
    + injection Hoff as <-. right. exists photo, s, dt, lo, hi. tauto.
  - intros photo s dt lo hi Hfile Htime Hparse Hmin Hmax Hloc _.
    rewrite (tag_photo_reaches_bounds _ _ _ _ _ _ _ _ _ _ Hfile Htime Hparse Hloc).
    pose proof (series_min_le_max _ _ _ Hmin Hmax) as Hle.
    rewrite Hmin, Hmax. split.
    + intros Hout. rewrite (out_of_bounds_outside _ _ _ Hout). reflexivity.
    + intros Hat. rewrite out_of_bounds_inside by lia. cbv zeta.
      destruct (interpolate points_df (timestamp (dt + off))) as [[la lo']|e].
      * destruct (write_location_console overwrite photo_path photo la lo'
                    (World (files w) (console w ++ [AddingLocation photo_path])))
          as (r & w' & rest & -> & Hc).
        exists r, w', rest. split; [reflexivity|].
        rewrite Hc. cbn [console]. rewrite <- app_assoc. reflexivity.
      * eexists _, _, []. split; reflexivity.
Qed.

(** C9, amended: for a photo that has a capture time and carries all four
    location tags.  Without the overwrite flag it gets the has-location
    outcome and the files are untouched.  With the flag, when the capture
    time parses, an offset was given, the adjusted time is within the bounds
    and the interpolated coordinates convert, the deletion removes the old
    latitude and longitude and leaves both reference tags in place, and the
    file then written carries the four new tags, nothing being left of the
    old ones. *)
Theorem tag_photo_existing_location (points_df : DataFrame)
    (mindt maxdt : option datetime) (offset : option timedelta)
    (photo_path : string) (w : world) (photo : Image) (s : string) :
  files w !! photo_path = Some (ImageFile photo) ->
  datetime_original photo = Some s ->
  photo_has_lat_long photo = true ->
  tag_photo points_df mindt maxdt offset false photo_path w
  = (Ok tt, World (files w) (console w ++ [SkipHasLocation photo_path]))
  /\ (forall dt off lo hi photolat photolon lat lon,
        strptime_exif s = Some dt ->
        offset = Some off ->
        mindt = Some lo -> maxdt = Some hi ->
        lo <= dt + off <= hi ->
        interpolate points_df (timestamp (dt + off)) = Ok (photolat, photolon) ->
        deg_to_dms photolat = Ok lat ->
        deg_to_dms photolon = Ok lon ->
        delete_location photo
        = (MkImage (datetime_original photo) None None
                   (gps_latitude_ref photo) (gps_longitude_ref photo), true)
        /\ tag_photo points_df mindt maxdt offset true photo_path w
           = (Ok tt,
              World (<[photo_path := ImageFile (with_location photo lat lon)]>
                       (files w))
                    (console w ++ [AddingLocation photo_path]))).
Proof.
  intros Hfile Htime Hloc. split.
  - unfold tag_photo, photo_has_datetime. io_unfold.
    rewrite Hfile, Htime, Hloc. reflexivity.
  - intros dt off lo hi photolat photolon lat lon
           Hparse -> -> -> Hin Hinterp Hlat Hlon.
    split; [apply delete_location_all_four; exact Hloc|].
    assert (photo_has_lat_long photo && negb true = false) as Hpass
      by apply andb_false_r.
    rewrite (tag_photo_tagged _ _ _ _ _ _ _ _ _ _ _ _ _ _
               Hfile Htime Hparse Hpass Hin Hinterp Hlat Hlon).
    unfold delete_report.
    rewrite (delete_location_all_four _ Hloc). cbn [snd negb].
    rewrite andb_false_r, app_nil_r. reflexivity.
Qed.

(** C10, amended: a photo counts as having a location exactly when all
    four of [gps_latitude], [gps_longitude], [gps_latitude_ref] and
    [gps_longitude_ref] can be read; a photo that lacks any of them is not
    stopped by the location check, and without the overwrite flag it is
    tagged when it passes the other checks: its capture time parses, an
    offset was given, the adjusted time is within the bounds and the
    coordinates convert. *)
Theorem photo_has_lat_long_all_four (points_df : DataFrame)
    (offset : option timedelta) (photo_path : string) (w : world)
    (photo : Image) :
  (photo_has_lat_long photo = true
   <-> is_Some (gps_latitude photo) /\ is_Some (gps_longitude photo)
       /\ is_Some (gps_latitude_ref photo)
       /\ is_Some (gps_longitude_ref photo))
  /\ (forall (s : string) (dt : datetime) (off : timedelta)
             (lo hi : datetime) (photolat photolon : float)
             (lat lon : Z * Z * float * Z),
        photo_has_lat_long photo = false ->
        files w !! photo_path = Some (ImageFile photo) ->
        datetime_original photo = Some s ->
        strptime_exif s = Some dt ->
        offset = Some off ->
        lo <= dt + off <= hi ->
        interpolate points_df (timestamp (dt + off)) = Ok (photolat, photolon) ->
        deg_to_dms photolat = Ok lat ->
        deg_to_dms photolon = Ok lon ->
        tag_photo points_df (Some lo) (Some hi) offset false photo_path w
        = (Ok tt,
           World (<[photo_path := ImageFile (with_location photo lat lon)]>
                    (files w))
                 (console w ++ [AddingLocation photo_path]))).
Proof.
  split.
  - destruct photo as [t la lo lr lor]; cbn. split.
    + destruct la, lo, lr, lor; try discriminate.
      intros _; repeat split; eexists; reflexivity.
    + intros ([? ->] & [? ->] & [? ->] & [? ->]). reflexivity.
  - intros s dt off lo hi photolat photolon lat lon
           Hnone Hfile Htime Hparse -> Hin Hinterp Hlat Hlon.
    assert (photo_has_lat_long photo && negb false = false) as Hloc
      by (rewrite Hnone; reflexivity).
    rewrite (tag_photo_tagged _ _ _ _ _ _ _ _ _ _ _ _ _ _
               Hfile Htime Hparse Hloc Hin Hinterp Hlat Hlon).
    unfold delete_report. cbn [andb]. rewrite app_nil_r. reflexivity.
Qed.

End General.

(** ** Runs of the program on concrete disks *)

Section Runs.

#[local] Existing Instance Utc.runtime.
Import Sample.

(** The loader reads the two-point track log into the sample track. *)
Lemma extract_points_sample :
  extract_points (Document [pt_start; pt_end]) = Ok track.
Proof. vm_compute; reflexivity. Qed.

(** C2, as stated, fails: a log of three points whose second one has no
    [lat] attribute (and one whose second point has no [time] child) does
    not load as the two well-formed points; the loader raises, and the
    interface keeps a frame with no columns. *)
Lemma extract_points_deficient_point_raises :
  extract_points (Document [pt_start; pt_no_lat; pt_end]) = Raise TypeError
  /\ extract_points (Document [pt_start; pt_no_time; pt_end]) = Raise IndexError
  /\ edit_gpx (Document [pt_start; pt_no_lat; pt_end]) = NoColumns.
Proof. repeat split; vm_compute; reflexivity. Qed.

(** C3 (the program departs from the claim): with a first photo that is
    missing from the disk, or whose metadata cannot be decoded, the run
    stops with the exception; nothing is printed and the second photo,
    which lies inside the track, is left as it was. *)
Theorem tag_photos_unreadable_photo_aborts :
  let missing := disk [("b.jpg", ImageFile photo_mid)] in
  let corrupt := disk [("a.jpg", CorruptFile); ("b.jpg", ImageFile photo_mid)] in
  tag_photos track ["a.jpg"; "b.jpg"] (Some 0) default_filetypes false missing
    = (Raise FileNotFoundError, missing)
  /\ tag_photos track ["a.jpg"; "b.jpg"] (Some 0) default_filetypes false corrupt
    = (Raise UnreadableImage, corrupt).
Proof. split; vm_compute; reflexivity. Qed.

(** C7 (the program departs from the claim): a photo with no capture time
    is skipped and the run goes on, but a photo whose capture time does not
    parse stops the run with [TypeError] after the parse failure is
    printed; the photo after it, inside the track, is not processed. *)
Theorem tag_photos_unparsable_time_aborts :
  let w_absent := disk [("a.jpg", ImageFile no_exif); ("b.jpg", ImageFile photo_before)] in
  let w_bad := disk [("a.jpg", ImageFile photo_bad_time); ("b.jpg", ImageFile photo_mid)] in
  tag_photos track ["a.jpg"; "b.jpg"] (Some 0) default_filetypes false w_absent
    = (Ok tt, World (files w_absent)
                [SkipNoTime "a.jpg";
                 SkipOutOfBounds "b.jpg" 1704067199000000
                   1704067200000000 1704067300000000])
  /\ tag_photos track ["a.jpg"; "b.jpg"] (Some 0) default_filetypes false w_bad
    = (Raise TypeError, World (files w_bad) [DatetimeFailed photo_bad_time]).
Proof. split; vm_compute; reflexivity. Qed.

(** C8 (the program departs from the claim): with a zero offset the photo
    in the middle of the track is tagged; with the offset left out (its
    default, [None]) the same run raises [TypeError] and writes nothing. *)
Theorem tag_photos_default_offset_raises :
  let w := disk [("a.jpg", ImageFile photo_mid)] in
  tag_photos track ["a.jpg"] (Some 0) default_filetypes false w
    = (Ok tt,
       World (list_to_map
                [("a.jpg",
                  ImageFile (MkImage (Some "2024:01:01 00:00:50")
                               (Some (5, 0, 0%float)) (Some (10, 0, 0%float))
                               (Some "N") (Some "E")))])
             [AddingLocation "a.jpg"])
  /\ tag_photos track ["a.jpg"] None default_filetypes false w
    = (Raise TypeError, w).
Proof. split; vm_compute; reflexivity. Qed.

(** C4, as stated, fails: a photo taken before the track starts that
    already carries the four location tags is, without the overwrite flag,
    reported as having a location and not as out of bounds. *)
Lemma tag_photos_has_location_before_bounds :
  let w := disk [("a.jpg", ImageFile (old_gps photo_before))] in
  tag_photos track ["a.jpg"] (Some 0) default_filetypes false w
    = (Ok tt, World (files w) [SkipHasLocation "a.jpg"]).
Proof. vm_compute; reflexivity. Qed.

(** C9, as stated, fails: the deletion that precedes the write removes the
    old latitude and longitude and leaves the old reference tags in the
    image; a photo with location tags and no capture time is reported as
    having no time; and with the overwrite flag a photo outside the track
    keeps its old tags. *)
Lemma overwrite_keeps_reference_tags :
  delete_location (old_gps photo_mid)
    = (MkImage (Some "2024:01:01 00:00:50") None None (Some "S") (Some "W"), true)
  /\ (let w := disk [("a.jpg", ImageFile (old_gps no_exif))] in
      tag_photos track ["a.jpg"] (Some 0) default_filetypes false w
        = (Ok tt, World (files w) [SkipNoTime "a.jpg"]))
  /\ (let w := disk [("a.jpg", ImageFile (old_gps photo_after))] in
      tag_photos track ["a.jpg"] (Some 0) default_filetypes true w
        = (Ok tt, World (files w)
                    [SkipOutOfBounds "a.jpg" 1704067301000000
                       1704067200000000 1704067300000000])).
Proof. repeat split; vm_compute; reflexivity. Qed.

(** C10, as stated, fails: a photo that carries a latitude and none of the
    other three tags does not count as having a location, and yet without
    the overwrite flag it is not tagged when it was taken a second before
    the track starts, nor when it has no capture time: the checks of time
    and bounds apply to it as to any photo. *)
Lemma tag_photos_partial_location_not_tagged :
  photo_has_lat_long photo_lat_only_before = false
  /\ photo_has_lat_long photo_lat_only_no_time = false
  /\ (let w := disk [("a.jpg", ImageFile photo_lat_only_before)] in
      tag_photos track ["a.jpg"] (Some 0) default_filetypes false w
        = (Ok tt, World (files w)
                    [SkipOutOfBounds "a.jpg" 1704067199000000
                       1704067200000000 1704067300000000]))
  /\ (let w := disk [("a.jpg", ImageFile photo_lat_only_no_time)] in
      tag_photos track ["a.jpg"] (Some 0) default_filetypes false w
        = (Ok tt, World (files w) [SkipNoTime "a.jpg"])).
Proof. repeat split; vm_compute; reflexivity. Qed.

End Runs.

(** ** The general theorems at work on the sample data *)

Section Witnesses.

Import Sample.

Lemma extract_points_lacks_field_witness :
  (exists e, @extract_points Utc.runtime
               (Document ([pt_start] ++ pt_no_lat :: [pt_end])) = Raise e)
  /\ @edit_gpx Utc.runtime (Document ([pt_start] ++ pt_no_lat :: [pt_end]))
     = NoColumns.
Proof.
  apply (@extract_points_lacks_field Utc.runtime [pt_start] [pt_end] pt_no_lat).
  right; right; reflexivity.
Defined.

Lemma tag_photo_bounds_check_witness :
  (let w := disk [("a.jpg", ImageFile photo_before)] in
   @tag_photo Utc.runtime track (series_min track_times) (series_max track_times)
     (Some 0) false "a.jpg" w
   = (Ok tt,
      World (files w)
            (console w ++ [SkipOutOfBounds "a.jpg" (1704067199000000 + 0)
                             1704067200000000 1704067300000000])))
  /\ (let w := disk [("a.jpg", ImageFile photo_end)] in
      exists r w' rest,
        @tag_photo Utc.runtime track (series_min track_times)
          (series_max track_times) (Some 0) false "a.jpg" w = (r, w')
        /\ console w' = console w ++ AddingLocation "a.jpg" :: rest).
Proof.
  split; cbv zeta.
  - refine (proj1 (proj2 (@tag_photo_bounds_check Utc.runtime track track_times
              0 false "a.jpg" (disk [("a.jpg", ImageFile photo_before)]))
              photo_before "2023:12:31 23:59:59" 1704067199000000
              1704067200000000 1704067300000000 _ _ _ _ _ _ _) _);
      try (vm_compute; reflexivity).
    + vm_compute. split; [discriminate | reflexivity].
    + left; lia.
  - refine (proj2 (proj2 (@tag_photo_bounds_check Utc.runtime track track_times
              0 false "a.jpg" (disk [("a.jpg", ImageFile photo_end)]))
              photo_end "2024:01:01 00:01:40" 1704067300000000
              1704067200000000 1704067300000000 _ _ _ _ _ _ _) _);
      try (vm_compute; reflexivity).
    + vm_compute. split; [discriminate | reflexivity].
    + right; lia.
Defined.

Lemma tag_photo_existing_location_witness :
  let w := disk [("a.jpg", ImageFile (old_gps photo_mid))] in
  let lo := Some 1704067200000000 in
  let hi := Some 1704067300000000 in
  @tag_photo Utc.runtime track lo hi (Some 0) false "a.jpg" w
  = (Ok tt, World (files w) (console w ++ [SkipHasLocation "a.jpg"]))
  /\ delete_location (old_gps photo_mid)
     = (MkImage (datetime_original (old_gps photo_mid)) None None
                (gps_latitude_ref (old_gps photo_mid))
                (gps_longitude_ref (old_gps photo_mid)), true)
  /\ @tag_photo Utc.runtime track lo hi (Some 0) true "a.jpg" w
     = (Ok tt,
        World (<["a.jpg" := ImageFile
                   (with_location (old_gps photo_mid)
                      (5, 0, 0%float, 1) (10, 0, 0%float, 1))]> (files w))
              (console w ++ [AddingLocation "a.jpg"])).
Proof.
  cbv zeta.
  destruct (@tag_photo_existing_location Utc.runtime track
              (Some 1704067200000000) (Some 1704067300000000) (Some 0)
              "a.jpg" (disk [("a.jpg", ImageFile (old_gps photo_mid))])
              (old_gps photo_mid) "2024:01:01 00:00:50")
    as [Hskip Hwrite]; try (vm_compute; reflexivity).
  split; [exact Hskip|].
  apply (Hwrite 1704067250000000 0 1704067200000000 1704067300000000
                5%float 10%float);
    try (vm_compute; reflexivity).
  lia.
Defined.

Lemma photo_has_lat_long_all_four_witness :
  let w := disk [("a.jpg", ImageFile photo_lat_only)] in
  photo_has_lat_long photo_lat_only = false
  /\ @tag_photo Utc.runtime track (Some 1704067200000000)
       (Some 1704067300000000) (Some 0) false "a.jpg" w
     = (Ok tt,
        World (<["a.jpg" := ImageFile
                   (with_location photo_lat_only
                      (5, 0, 0%float, 1) (10, 0, 0%float, 1))]> (files w))
              (console w ++ [AddingLocation "a.jpg"])).
Proof.
  cbv zeta. split; [reflexivity|].
  apply (proj2 (@photo_has_lat_long_all_four Utc.runtime track (Some 0)
                  "a.jpg" (disk [("a.jpg", ImageFile photo_lat_only)])
                  photo_lat_only)
               "2024:01:01 00:00:50" 1704067250000000 0
               1704067200000000 1704067300000000 5%float 10%float);
    try (vm_compute; reflexivity).
  lia.
Defined.

End Witnesses.

(** * Further properties of the tagger *)

Section Tagger.

Context `{R : Runtime}.

(** The write block empties the file and then either raises, leaving it
    empty, or writes the image with its four new tags. *)
Lemma write_location_cases (overwrite : bool) (photo_path : string)
    (photo : Image) (photolat photolon : float) (w : world) :
  exists r w' msgs,
    write_location overwrite photo_path photo photolat photolon w = (r, w')
    /\ console w' = console w ++ msgs
    /\ ((exists e, r = Raise e
                  /\ (deg_to_dms photolat = Raise e
                      \/ deg_to_dms photolon = Raise e)
                  /\ files w' = <[photo_path := EmptyFile]> (files w))
        \/ (exists lat lon,
              r = Ok tt
              /\ deg_to_dms photolat = Ok lat /\ deg_to_dms photolon = Ok lon
              /\ files w'
                 = <[photo_path := ImageFile (with_location photo lat lon)]>
                     (files w))).
Proof.
  destruct (deg_to_dms photolat) as [lat|e] eqn:Hlat.
  - destruct (deg_to_dms photolon) as [lon|e] eqn:Hlon.
    + rewrite (write_location_ok _ _ _ _ _ _ _ _ Hlat Hlon).
      eexists _, _, _. split; [reflexivity|]. split; [reflexivity|].
      right. exists lat, lon. repeat split; reflexivity.
    + destruct lat as [[[lat_d lat_m] lat_s] lat_h].
      unfold write_location. io_unfold. rewrite Hlat, Hlon.
      destruct overwrite, photo as [t [la|] [lo|] lr lor]; cbn;
        eexists _, _, _; (split; [reflexivity|]); cbn;
        (split; [first [reflexivity | symmetry; apply app_nil_r]|]);
        left; exists e; repeat split; auto.
  - unfold write_location. io_unfold. rewrite Hlat.
    destruct overwrite, photo as [t [la|] [lo|] lr lor]; cbn;
      eexists _, _, _; (split; [reflexivity|]); cbn;
      (split; [first [reflexivity | symmetry; apply app_nil_r]|]);
      left; exists e; repeat split; auto.
Qed.

(** What one iteration can do to the files: nothing, or, for an image that
    passed the capture-time and location checks, empty it (and raise) or
    replace it by the image with its four new tags (and return). *)
Lemma tag_photo_effect (points_df : DataFrame) (mindt maxdt : option datetime)
    (offset : option timedelta) (overwrite : bool) (photo_path : string)
    (w w' : world) (r : result unit) :
  tag_photo points_df mindt maxdt offset overwrite photo_path w = (r, w') ->
  files w' = files w
  \/ exists photo,
       files w !! photo_path = Some (ImageFile photo)
       /\ photo_has_datetime photo = true
       /\ photo_has_lat_long photo && negb overwrite = false
       /\ ((exists e, r = Raise e
                      /\ files w' = <[photo_path := EmptyFile]> (files w))
           \/ (exists lat lon,
                 r = Ok tt
                 /\ files w'
                    = <[photo_path := ImageFile (with_location photo lat lon)]>
                        (files w))).
Proof.
  unfold tag_photo, photo_has_datetime. io_unfold.
  destruct (files w !! photo_path) as [[photo| |]|] eqn:Hfile;
    try (intros [= <- <-]; left; reflexivity).
  destruct (datetime_original photo) as [s|] eqn:Htime; cbn [negb];
    [|intros [= <- <-]; left; reflexivity].
  destruct (photo_has_lat_long photo && negb overwrite) eqn:Hloc;
    [intros [= <- <-]; left; reflexivity|].
  destruct (strptime_exif s) as [dt|]; cbn [add_offset];
    [|intros [= <- <-]; left; reflexivity].
  destruct offset as [off|]; [|intros [= <- <-]; left; reflexivity].
  destruct (out_of_bounds (dt + off) mindt maxdt) as [[|]|e];
    try (intros [= <- <-]; left; reflexivity).
  destruct (interpolate points_df (timestamp (dt + off))) as [[la lo]|e];
    [|intros [= <- <-]; left; reflexivity].
  destruct (write_location_cases overwrite photo_path photo la lo
              (World (files w) (console w ++ [AddingLocation photo_path])))
    as (r0 & w0 & msgs & -> & _ & Hcases).
  intros [= <- <-]. right. exists photo. rewrite Htime.
  repeat split; auto.
  destruct Hcases as [(e & -> & _ & ->) | (lat & lon & -> & _ & _ & ->)].
  - left. exists e. split; reflexivity.
  - right. exists lat, lon. split; reflexivity.
Qed.

Lemma tag_photo_frame (points_df : DataFrame) (mindt maxdt : option datetime)
    (offset : option timedelta) (overwrite : bool) (photo_path q : string)
    (w w' : world) (r : result unit) :
  tag_photo points_df mindt maxdt offset overwrite photo_path w = (r, w') ->
  q <> photo_path ->
  files w' !! q = files w !! q.
Proof.
  intros Hrun Hne. apply tag_photo_effect in Hrun.
  destruct Hrun as [-> | (photo & _ & _ & _ & [(e & _ & ->) | (lat & lon & _ & ->)])];
    [reflexivity| |]; apply lookup_insert_ne; congruence.
Qed.

Lemma with_location_datetime (photo : Image) (lat lon : Z * Z * float * Z) :
  datetime_original (with_location photo lat lon) = datetime_original photo.
Proof.
  destruct lat as [[[? ?] ?] ?], lon as [[[? ?] ?] ?]. reflexivity.
Qed.

Lemma with_location_has_lat_long (photo : Image) (lat lon : Z * Z * float * Z) :
  photo_has_lat_long (with_location photo lat lon) = true.
Proof.
  destruct lat as [[[? ?] ?] ?], lon as [[[? ?] ?] ?]. reflexivity.
Qed.

Lemma evolves_refl (f : option file) : evolves f f.
Proof. left; reflexivity. Qed.

Lemma evolves_trans (f g h : option file) :
  evolves f g -> evolves g h -> evolves f h.
Proof.
  intros [-> | (photo & -> & Hg)] Hgh; [exact Hgh|].
  destruct Hgh as [-> | (photo' & -> & Hh)].
  - right. exists photo. split; [reflexivity|exact Hg].
  - right. exists photo. split; [reflexivity|].
    destruct Hg as [[=] | (photo0 & [= <-] & Heq)].
    destruct Hh as [-> | (photo'' & -> & Heq')]; [left; reflexivity|].
    right. exists photo''. split; [reflexivity|congruence].
Qed.

Lemma tag_photo_evolves (points_df : DataFrame) (mindt maxdt : option datetime)
    (offset : option timedelta) (overwrite : bool) (photo_path q : string)
    (w w' : world) (r : result unit) :
  tag_photo points_df mindt maxdt offset overwrite photo_path w = (r, w') ->
  evolves (files w !! q) (files w' !! q).
Proof.
  intros Hrun. destruct (decide (q = photo_path)) as [-> | Hne].
  - apply tag_photo_effect in Hrun.
    destruct Hrun
      as [-> | (photo & Hfile & _ & _ & [(e & _ & ->) | (lat & lon & _ & ->)])].
    + apply evolves_refl.
    + right. exists photo. split; [exact Hfile|].
      left. apply lookup_insert_eq.
    + right. exists photo. split; [exact Hfile|].
      right. eexists. split; [apply lookup_insert_eq|].
      apply with_location_datetime.
  - rewrite (tag_photo_frame _ _ _ _ _ _ _ _ _ _ Hrun Hne). apply evolves_refl.
Qed.

(** The loop, one iteration unfolded. *)
Lemma tag_loop_cons (points_df : DataFrame) (mindt maxdt : option datetime)
    (offset : option timedelta) (overwrite : bool) (photo_path : string)
    (rest : list string) (w : world) :
  tag_loop points_df mindt maxdt offset overwrite (photo_path :: rest) w
  = match tag_photo points_df mindt maxdt offset overwrite photo_path w with
    | (Ok _, w1) => tag_loop points_df mindt maxdt offset overwrite rest w1
    | (Raise e, w1) => (Raise e, w1)
    end.
Proof. reflexivity. Qed.

Lemma tag_loop_evolves (points_df : DataFrame) (mindt maxdt : option datetime)
    (offset : option timedelta) (overwrite : bool) (paths : list string)
    (w : world) (q : string) :
  evolves (files w !! q)
    (files (tag_loop points_df mindt maxdt offset overwrite paths w).2 !! q).
Proof.
  revert w. induction paths as [|p rest IH]; intros w.
  - apply evolves_refl.
  - rewrite tag_loop_cons.
    destruct (tag_photo points_df mindt maxdt offset overwrite p w)
      as [[u|e] w1] eqn:Hrun.
    + eapply evolves_trans; [eapply tag_photo_evolves; exact Hrun|apply IH].
    + eapply tag_photo_evolves; exact Hrun.
Qed.

Lemma tag_loop_frame (points_df : DataFrame) (mindt maxdt : option datetime)
    (offset : option timedelta) (overwrite : bool) (paths : list string)
    (w : world) (q : string) :
  q ∉ paths ->
  files (tag_loop points_df mindt maxdt offset overwrite paths w).2 !! q
  = files w !! q.
Proof.
  revert w. induction paths as [|p rest IH]; intros w Hq; [reflexivity|].
  apply not_elem_of_cons in Hq as [Hne Hrest].
  rewrite tag_loop_cons.
  destruct (tag_photo points_df mindt maxdt offset overwrite p w)
    as [[u|e] w1] eqn:Hrun.
  - rewrite (IH w1 Hrest). eapply tag_photo_frame; eauto.
  - eapply tag_photo_frame; eauto.
Qed.

Lemma tag_photos_world (points_df : DataFrame) (photo_paths : list string)
    (offset : option timedelta) (valid_filetypes : list string)
    (overwrite : bool) (w : world) :
  points_df = NoColumns
  /\ tag_photos points_df photo_paths offset valid_filetypes overwrite w
     = (Raise KeyError, w)
  \/ exists rows,
       points_df = Frame rows
       /\ tag_photos points_df photo_paths offset valid_filetypes overwrite w
          = tag_loop points_df (series_min (map Datetime rows))
              (series_max (map Datetime rows)) offset overwrite
              (filter (fun f => valid_path valid_filetypes f = true) photo_paths)
              w.
Proof.
  destruct points_df as [|rows]; [left|right; exists rows]; split; reflexivity.
Qed.

(** X12: whatever the run does, the content of every path is afterwards what
    it was, or it was an image and is now empty or an image with the same
    capture time: the tagger creates no file, removes none, leaves alone
    what it cannot decode and never alters a capture time. *)
Theorem tag_photos_evolves (points_df : DataFrame) (photo_paths : list string)
    (offset : option timedelta) (valid_filetypes : list string)
    (overwrite : bool) (w : world) (q : string) :
  evolves (files w !! q)
    (files (tag_photos points_df photo_paths offset valid_filetypes
              overwrite w).2 !! q).
Proof.
  destruct (tag_photos_world points_df photo_paths offset valid_filetypes
              overwrite w) as [[_ ->] | (rows & _ & ->)].
  - apply evolves_refl.
  - apply tag_loop_evolves.
Qed.

(** X11: a path that is not in the list, or whose extension is not allowed,
    has after the run the content it had before. *)
Theorem tag_photos_frame_rule (points_df : DataFrame)
    (photo_paths : list string) (offset : option timedelta)
    (valid_filetypes : list string) (overwrite : bool) (w : world)
    (q : string) :
  q ∉ photo_paths \/ valid_path valid_filetypes q = false ->
  files (tag_photos points_df photo_paths offset valid_filetypes
           overwrite w).2 !! q
  = files w !! q.
Proof.
  intros Hq.
  destruct (tag_photos_world points_df photo_paths offset valid_filetypes
              overwrite w) as [[_ ->] | (rows & _ & ->)]; [reflexivity|].
  apply tag_loop_frame. rewrite list_elem_of_filter.
  intros [Hvalid Hin]. destruct Hq as [Hq | Hq]; [auto|congruence].
Qed.

(** An iteration that returns leaves the photo in a state on which every
    later iteration is quiet: a skipped photo is skipped again for the same
    reason, a tagged one is skipped for having a location. *)
Lemma tag_photo_quiet (points_df : DataFrame) (mindt maxdt : option datetime)
    (offset : option timedelta) (photo_path : string) (w w' : world) :
  tag_photo points_df mindt maxdt offset false photo_path w = (Ok tt, w') ->
  quiet points_df mindt maxdt offset (files w' !! photo_path).
Proof.
  unfold tag_photo, photo_has_datetime. io_unfold.
  destruct (files w !! photo_path) as [[photo| |]|] eqn:Hfile;
    try discriminate.
  2:{ intros [= <-]. cbn [files]. rewrite Hfile. intros p v Hv.
      unfold tag_photo. io_unfold. rewrite Hv. cbn. eauto. }
  destruct (datetime_original photo) as [s|] eqn:Htime; cbn [negb].
  2:{ intros [= <-]. cbn [files]. rewrite Hfile. intros p v Hv.
      unfold tag_photo, photo_has_datetime. io_unfold.
      rewrite Hv, Htime. cbn. eauto. }
  destruct (photo_has_lat_long photo) eqn:Hloc; cbn [andb negb].
  { intros [= <-]. cbn [files]. rewrite Hfile. intros p v Hv.
    unfold tag_photo, photo_has_datetime. io_unfold.
    rewrite Hv, Htime, Hloc. cbn. eauto. }
  destruct (strptime_exif s) as [dt|] eqn:Hparse; cbn [add_offset];
    [|discriminate].
  destruct offset as [off|]; [|discriminate].
  destruct (out_of_bounds (dt + off) mindt maxdt) as [[|]|e] eqn:Hout;
    [| |discriminate].
  { intros [= <-]. cbn [files]. rewrite Hfile. intros p v Hv.
    unfold tag_photo, photo_has_datetime. io_unfold.
    rewrite Hv, Htime, Hloc, Hparse. cbn [andb negb add_offset]. rewrite Hout.
    eauto. }
  destruct (interpolate points_df (timestamp (dt + off))) as [[la lo]|e];
    [|discriminate].
  destruct (write_location_cases false photo_path photo la lo
              (World (files w) (console w ++ [AddingLocation photo_path])))
    as (r0 & w0 & msgs & -> & _ & Hcases).
  intros [= -> ->].
  destruct Hcases as [(e & [=] & _) | (lat & lon & _ & _ & _ & ->)].
  rewrite lookup_insert_eq. intros p v Hv.
  unfold tag_photo, photo_has_datetime. io_unfold.
  rewrite Hv, with_location_datetime, Htime, with_location_has_lat_long.
  cbn. eauto.
Qed.

Lemma quiet_files (points_df : DataFrame) (mindt maxdt : option datetime)
    (offset : option timedelta) (photo_path : string) (w w' : world)
    (r : result unit) :
  quiet points_df mindt maxdt offset (files w !! photo_path) ->
  tag_photo points_df mindt maxdt offset false photo_path w = (r, w') ->
  r = Ok tt /\ files w' = files w.
Proof.
  intros Hq Hrun. destruct (Hq photo_path w eq_refl) as [m Hm].
  rewrite Hm in Hrun. injection Hrun as <- <-. split; reflexivity.
Qed.

(** After a run of the loop that returned, every path of the list is quiet. *)
Lemma tag_loop_all_quiet (points_df : DataFrame) (mindt maxdt : option datetime)
    (offset : option timedelta) (paths done : list string) (w w' : world) :
  Forall (fun p => quiet points_df mindt maxdt offset (files w !! p)) done ->
  tag_loop points_df mindt maxdt offset false paths w = (Ok tt, w') ->
  Forall (fun p => quiet points_df mindt maxdt offset (files w' !! p))
         (done ++ paths).
Proof.
  revert done w. induction paths as [|p rest IH]; intros done w Hdone.
  - intros [= <-]. rewrite app_nil_r. exact Hdone.
  - rewrite tag_loop_cons.
    destruct (tag_photo points_df mindt maxdt offset false p w)
      as [[[]|e] w1] eqn:Hrun; [|discriminate].
    intros Hrest.
    replace (done ++ p :: rest) with ((done ++ [p]) ++ rest)
      by (rewrite <- app_assoc; reflexivity).
    apply (IH (done ++ [p]) w1); [|exact Hrest].
    apply Forall_app. split.
    + eapply Forall_impl; [exact Hdone|]. intros q Hq. cbn in Hq.
      destruct (decide (q = p)) as [-> | Hne].
      * destruct (quiet_files _ _ _ _ _ _ _ _ Hq Hrun) as [_ ->]. exact Hq.
      * rewrite (tag_photo_frame _ _ _ _ _ _ _ _ _ _ Hrun Hne). exact Hq.
    + apply Forall_singleton. eapply tag_photo_quiet; exact Hrun.
Qed.

(** On a world where every path of the list is quiet, the loop returns and
    keeps the files. *)
Lemma tag_loop_on_quiet (points_df : DataFrame) (mindt maxdt : option datetime)
    (offset : option timedelta) (paths : list string) (w : world) :
  Forall (fun p => quiet points_df mindt maxdt offset (files w !! p)) paths ->
  exists msgs,
    tag_loop points_df mindt maxdt offset false paths w
    = (Ok tt, World (files w) (console w ++ msgs)).
Proof.
  revert w. induction paths as [|p rest IH]; intros w Hall.
  - exists []. rewrite app_nil_r. destruct w; reflexivity.
  - apply Forall_cons in Hall as [Hp Hrest].
    destruct (Hp p w eq_refl) as [m Hm].
    rewrite tag_loop_cons, Hm.
    destruct (IH (World (files w) (console w ++ [m])) Hrest) as [msgs ->].
    exists (m :: msgs). cbn [files console].
    rewrite <- app_assoc. reflexivity.
Qed.

(** X14: running the tagger a second time.  When a run without the overwrite
    flag has returned, the same run started again on the files it left
    returns too and changes no file: it only prints. *)
Theorem tag_photos_twice (points_df : DataFrame) (photo_paths : list string)
    (offset : option timedelta) (valid_filetypes : list string)
    (w w1 : world) :
  tag_photos points_df photo_paths offset valid_filetypes false w = (Ok tt, w1) ->
  exists msgs,
    tag_photos points_df photo_paths offset valid_filetypes false w1
    = (Ok tt, World (files w1) (console w1 ++ msgs)).
Proof.
  destruct (tag_photos_world points_df photo_paths offset valid_filetypes
              false w) as [[_ ->] | (rows & -> & ->)]; [discriminate|].
  intros Hrun. rewrite tag_photos_frame.
  apply tag_loop_on_quiet.
  apply (tag_loop_all_quiet _ _ _ _ _ [] _ _ (Forall_nil_2 _) Hrun).
Qed.

Lemma tag_loop_app (points_df : DataFrame) (mindt maxdt : option datetime)
    (offset : option timedelta) (overwrite : bool) (first rest : list string)
    (w : world) :
  tag_loop points_df mindt maxdt offset overwrite (first ++ rest) w
  = match tag_loop points_df mindt maxdt offset overwrite first w with
    | (Ok _, w1) => tag_loop points_df mindt maxdt offset overwrite rest w1
    | (Raise e, w1) => (Raise e, w1)
    end.
Proof.
  revert w. induction first as [|p first IH]; intros w; [reflexivity|].
  rewrite <- app_comm_cons, !tag_loop_cons.
  destruct (tag_photo points_df mindt maxdt offset overwrite p w)
    as [[u|e] w1]; [apply IH|reflexivity].
Qed.

(** X13: a run over a list in two batches.  A run over [first ++ rest] is the
    run over [first] followed, when that one returns, by the run over
    [rest] on the world it left; an exception in the first batch ends the
    whole run. *)
Theorem tag_photos_app (points_df : DataFrame) (first rest : list string)
    (offset : option timedelta) (valid_filetypes : list string)
    (overwrite : bool) (w : world) :
  tag_photos points_df (first ++ rest) offset valid_filetypes overwrite w
  = match tag_photos points_df first offset valid_filetypes overwrite w with
    | (Ok _, w1) =>
        tag_photos points_df rest offset valid_filetypes overwrite w1
    | (Raise e, w1) => (Raise e, w1)
    end.
Proof.
  destruct points_df as [|rows]; [reflexivity|].
  rewrite !tag_photos_frame, filter_app, tag_loop_app.
  destruct (tag_loop _ _ _ _ _ _ w) as [[u|e] w1]; [|reflexivity].
  rewrite tag_photos_frame. reflexivity.
Qed.

(** X10: a path whose extension is not in the allow-list is never opened: the
    run is the same with the path taken out of the list, whatever the path
    holds or fails to hold. *)
Theorem tag_photos_skips_other_types (points_df : DataFrame)
    (before after : list string) (other : string)
    (offset : option timedelta) (valid_filetypes : list string)
    (overwrite : bool) (w : world) :
  valid_path valid_filetypes other = false ->
  tag_photos points_df (before ++ other :: after) offset valid_filetypes
    overwrite w
  = tag_photos points_df (before ++ after) offset valid_filetypes overwrite w.
Proof.
  intros Hother. destruct points_df as [|rows]; [reflexivity|].
  rewrite !tag_photos_frame, !filter_app, filter_cons_False by congruence.
  reflexivity.
Qed.

(** X4: a go after a failed load.  When the loader raises, the frame the
    interface keeps has no columns, and the tagger run on it raises
    [KeyError] before it opens any photo: the world is untouched. *)
Theorem tag_photos_after_failed_load (file : gpx_file) (e : exn)
    (photo_paths : list string) (offset : option timedelta)
    (valid_filetypes : list string) (overwrite : bool) (w : world) :
  extract_points file = Raise e ->
  tag_photos (edit_gpx file) photo_paths offset valid_filetypes overwrite w
  = (Raise KeyError, w).
Proof.
  intros Hload. unfold edit_gpx. rewrite Hload. reflexivity.
Qed.

(** X15: when one of the two conversions raises (a coordinate that is not a
    finite number), the iteration raises after the file has been opened for
    writing: the photo is left as an empty file. *)
Theorem tag_photo_failed_conversion_empties_file (points_df : DataFrame)
    (off : timedelta) (overwrite : bool) (photo_path : string) (w : world)
    (photo : Image) (s : string) (dt lo hi : datetime)
    (photolat photolon : float) :
  files w !! photo_path = Some (ImageFile photo) ->
  datetime_original photo = Some s ->
  strptime_exif s = Some dt ->
  photo_has_lat_long photo && negb overwrite = false ->
  lo <= dt + off <= hi ->
  interpolate points_df (timestamp (dt + off)) = Ok (photolat, photolon) ->
  (exists e, deg_to_dms photolat = Raise e)
  \/ (exists e, deg_to_dms photolon = Raise e) ->
  exists e w',
    tag_photo points_df (Some lo) (Some hi) (Some off) overwrite photo_path w
    = (Raise e, w')
    /\ files w' = <[photo_path := EmptyFile]> (files w).
Proof.
  intros Hfile Htime Hparse Hloc Hin Hinterp Hfail.
  rewrite (tag_photo_reaches_bounds _ _ _ _ _ _ _ _ _ _ Hfile Htime Hparse Hloc).
  rewrite (out_of_bounds_inside _ _ _ Hin), Hinterp. cbv zeta.
  destruct (write_location_cases overwrite photo_path photo photolat photolon
              (World (files w) (console w ++ [AddingLocation photo_path])))
    as (r0 & w0 & msgs & -> & _ & Hcases).
  destruct Hcases as [(e & -> & _ & Hf) | (lat & lon & _ & Hlat & Hlon & _)].
  - exists e, w0. split; [reflexivity|exact Hf].
  - destruct Hfail as [[e He] | [e He]]; congruence.
Qed.

(** X16: with the overwrite flag, a photo that has only one of its old
    latitude and longitude makes the deletion fail; the failure is printed
    and the photo is tagged all the same. *)
Theorem tag_photo_partial_old_tags (points_df : DataFrame) (off : timedelta)
    (photo_path : string) (w : world) (photo : Image) (s : string)
    (dt lo hi : datetime) (photolat photolon : float)
    (lat lon : Z * Z * float * Z) :
  files w !! photo_path = Some (ImageFile photo) ->
  datetime_original photo = Some s ->
  strptime_exif s = Some dt ->
  (gps_latitude photo = None /\ is_Some (gps_longitude photo))
  \/ (is_Some (gps_latitude photo) /\ gps_longitude photo = None) ->
  lo <= dt + off <= hi ->
  interpolate points_df (timestamp (dt + off)) = Ok (photolat, photolon) ->
  deg_to_dms photolat = Ok lat ->
  deg_to_dms photolon = Ok lon ->
  tag_photo points_df (Some lo) (Some hi) (Some off) true photo_path w
  = (Ok tt,
     World (<[photo_path := ImageFile (with_location photo lat lon)]> (files w))
           (console w ++ [AddingLocation photo_path; DeleteFailed photo_path])).
Proof.
  intros Hfile Htime Hparse Hpart Hin Hinterp Hlat Hlon.
  assert (photo_has_lat_long photo && negb true = false) as Hloc
    by apply andb_false_r.
  rewrite (tag_photo_tagged _ _ _ _ _ _ _ _ _ _ _ _ _ _
             Hfile Htime Hparse Hloc Hin Hinterp Hlat Hlon).
  rewrite <- app_assoc. do 3 f_equal.
  unfold delete_report, delete_location.
  destruct photo as [t la lo' lr lor]; cbn in *.
  destruct Hpart as [[-> [x ->]] | [[x ->] ->]]; reflexivity.
Qed.

End Tagger.

(** * Further properties of the loader and of the interpolation *)

Section Loader.

Context `{R : Runtime}.

Lemma extract_point_ok (elm : trkpt) (r : row) :
  extract_point elm = Ok r <-> row_of_point elm r.
Proof.
  unfold extract_point, py_float, row_of_point. cbv [mbind result_bind]. split.
  - destruct (time_elements elm) as [|[s|] others]; try discriminate.
    destruct (strptime_gpx s) as [dt|] eqn:Hdt; try discriminate.
    destruct (attr_lon elm) as [lon_s|]; try discriminate.
    destruct (float_of_string lon_s) as [lon|] eqn:Hlon; try discriminate.
    destruct (attr_lat elm) as [lat_s|]; try discriminate.
    destruct (float_of_string lat_s) as [lat|] eqn:Hlat; try discriminate.
    intros [= <-]. cbn. exists others, lon_s, lat_s. repeat split; auto.
  - intros (others & lon_s & lat_s & -> & -> & Hts & -> & -> & -> & ->).
    destruct r as [t d ts la lo]; cbn in *. rewrite Hts. reflexivity.
Qed.

Lemma extract_rows_ok (elms : list trkpt) (rows : list row) :
  extract_rows elms = Ok rows <-> Forall2 row_of_point elms rows.
Proof.
  revert rows. induction elms as [|elm elms IH]; intros rows; cbn.
  - split; [intros [= <-]; constructor|].
    intros Hall. apply Forall2_nil_inv_l in Hall as ->. reflexivity.
  - cbv [mbind result_bind]. split.
    + destruct (extract_point elm) as [r|] eqn:Hr; [|discriminate].
      destruct (extract_rows elms) as [rs|]; [|discriminate].
      intros [= <-]. constructor; [apply extract_point_ok; exact Hr|].
      apply IH. reflexivity.
    + intros Hall. apply Forall2_cons_inv_l in Hall as (r & rs & Hr & Hrs & ->).
      apply extract_point_ok in Hr as ->. apply IH in Hrs as ->. reflexivity.
Qed.

(** X2: the loader returns a frame exactly when the file is a well-formed
    document all of whose track points are well-formed, and the frame then
    has one row per point, in document order, each made of the first [time]
    child, the [lat] attribute as latitude and the [lon] attribute as
    longitude. *)
Theorem extract_points_ok (file : gpx_file) (df : DataFrame) :
  extract_points file = Ok df
  <-> exists elms rows,
        file = Document elms /\ df = Frame rows
        /\ Forall2 row_of_point elms rows.
Proof.
  unfold extract_points. split.
  - destruct file as [| |elms]; try discriminate.
    cbv [mbind result_bind].
    destruct (extract_rows elms) as [rows|] eqn:Hrows; [|discriminate].
    intros [= <-]. exists elms, rows. repeat split.
    apply extract_rows_ok. exact Hrows.
  - intros (elms & rows & -> & -> & Hall).
    apply extract_rows_ok in Hall as ->. reflexivity.
Qed.

(** X3: the exception the loader raises is that of the first track point, in
    document order, that fails; the points after it are not looked at. *)
Theorem extract_points_first_failure (pre post : list trkpt) (bad : trkpt)
    (rows : list row) (e : exn) :
  extract_rows pre = Ok rows ->
  extract_point bad = Raise e ->
  extract_points (Document (pre ++ bad :: post)) = Raise e.
Proof.
  intros Hpre Hbad. unfold extract_points.
  assert (extract_rows (pre ++ bad :: post) = Raise e) as ->; [|reflexivity].
  revert rows Hpre. induction pre as [|elm pre IH]; intros rows; cbn.
  - intros _. rewrite Hbad. reflexivity.
  - cbv [mbind result_bind].
    destruct (extract_point elm) as [r|]; [|discriminate].
    destruct (extract_rows pre) as [rs|] eqn:Hrs; [|discriminate].
    intros _. cbv [mbind result_bind] in IH. rewrite (IH rs eq_refl).
    reflexivity.
Qed.

End Loader.

Lemma np_interp_ok (x : float) (xp fp : list float) :
  length fp = length xp -> xp <> [] ->
  exists r, np_interp x xp fp = Ok r.
Proof.
  intros Hlen Hne. unfold np_interp.
  rewrite Hlen, Z.eqb_refl. cbn [negb].
  destruct (Z.eqb_spec (Z.of_nat (length xp)) 0) as [H0|_].
  { destruct xp; [congruence|cbn in H0; lia]. }
  repeat match goal with
         | |- exists r, (if ?c then _ else _) = Ok r => destruct c
         end; eauto.
Qed.

(** X5: the two interpolations return exactly when the frame has its
    columns and at least one row; no query time makes them raise on a track
    that has a point. *)
Theorem interpolate_returns_iff (points_df : DataFrame) (photots : float) :
  (exists photolat photolon,
      interpolate points_df photots = Ok (photolat, photolon))
  <-> exists rows, points_df = Frame rows /\ rows <> [].
Proof.
  unfold interpolate. split.
  - intros (photolat & photolon & Hrun).
    destruct points_df as [|rows]; [discriminate Hrun|].
    exists rows. split; [reflexivity|].
    intros ->. vm_compute in Hrun. discriminate Hrun.
  - intros (rows & -> & Hne). cbn. cbv [mbind result_bind].
    destruct (np_interp_ok photots (map Timestamp rows) (map Latitude rows))
      as [la ->]; [rewrite !length_map; reflexivity|destruct rows; [congruence|discriminate]|].
    destruct (np_interp_ok photots (map Timestamp rows) (map Longitude rows))
      as [lo ->]; [rewrite !length_map; reflexivity|destruct rows; [congruence|discriminate]|].
    eauto.
Qed.

(** X6: on a track of a single point the interpolations return the
    coordinates of that point at every query time. *)
Theorem interpolate_single_point (r : row) (photots : float) :
  interpolate (Frame [r]) photots = Ok (Latitude r, Longitude r).
Proof.
  destruct r as [time dt ts lat lon]. cbv.
  destruct (photots <? ts)%float, (ts <? photots)%float; reflexivity.
Qed.

(** * Properties of the extension filter *)

Section Extensions.

Import Path.

Lemma str_app_cons (a : ascii) (s1 s2 : string) :
  String a s1 +:+ s2 = String a (s1 +:+ s2).
Proof. reflexivity. Qed.

Lemma str_app_empty (s : string) : EmptyString +:+ s = s.
Proof. reflexivity. Qed.

Lemma rfind_from_app (c : ascii) (s1 s2 : string) (i acc : Z) :
  rfind_from c (s1 +:+ s2) i acc
  = rfind_from c s2 (i + Z.of_nat (String.length s1)) (rfind_from c s1 i acc).
Proof.
  revert i acc. induction s1 as [|a s1 IH]; intros i acc.
  - rewrite str_app_empty. cbn. f_equal. lia.
  - rewrite str_app_cons. cbn [rfind_from String.length]. rewrite IH. f_equal. lia.
Qed.

Lemma rfind_from_absent (c : ascii) (s : string) (i acc : Z) :
  has_char c s = false -> rfind_from c s i acc = acc.
Proof.
  revert i acc. induction s as [|a s IH]; intros i acc; cbn; [reflexivity|].
  intros H. apply orb_false_iff in H as [-> Hs]. apply IH. exact Hs.
Qed.

Lemma str_get_app_r (s1 s2 : string) (n : nat) :
  String.get (String.length s1 + n) (s1 +:+ s2) = String.get n s2.
Proof.
  induction s1 as [|a s1 IH]; [reflexivity|]. rewrite str_app_cons. exact IH.
Qed.

Lemma str_substring_app_r (s1 s2 : string) (m : nat) :
  String.substring (String.length s1) m (s1 +:+ s2) = String.substring 0 m s2.
Proof.
  induction s1 as [|a s1 IH]; [reflexivity|]. rewrite str_app_cons. exact IH.
Qed.

Lemma str_substring_whole (s : string) :
  String.substring 0 (String.length s) s = s.
Proof. induction s as [|a s IH]; [reflexivity|cbn; rewrite IH; reflexivity]. Qed.

Lemma str_length_app (s1 s2 : string) :
  String.length (s1 +:+ s2) = (String.length s1 + String.length s2)%nat.
Proof.
  induction s1 as [|a s1 IH]; [reflexivity|].
  rewrite str_app_cons. cbn. rewrite IH. reflexivity.
Qed.

Lemma str_app_assoc (s1 s2 s3 : string) :
  (s1 +:+ s2) +:+ s3 = s1 +:+ (s2 +:+ s3).
Proof.
  induction s1 as [|a s1 IH]; [reflexivity|].
  rewrite !str_app_cons, IH. reflexivity.
Qed.

Lemma has_non_dot_stem (pre stem rest : string) :
  has_non_dot (pre +:+ stem +:+ rest) (String.length pre) (String.length stem)
  = negb (only_dots stem).
Proof.
  revert pre. induction stem as [|a stem IH]; intros pre; [reflexivity|].
  cbn [String.length has_non_dot only_dots].
  replace (String.length pre) with (String.length pre + 0)%nat at 1 by lia.
  rewrite str_get_app_r, str_app_cons. cbn [String.get].
  destruct (Ascii.eqb a ".") eqn:Ha; [|reflexivity]. cbn [andb].
  specialize (IH (pre +:+ String a EmptyString)).
  rewrite str_length_app in IH. cbn [String.length] in IH.
  replace (String.length pre + 1)%nat with (S (String.length pre)) in IH by lia.
  rewrite <- IH, str_app_assoc. reflexivity.
Qed.

(** The directory part of a path: nothing, or something that ends with a
    slash. *)
Lemma rfind_slash_dir (dir tail : string) :
  dir = EmptyString \/ (exists d, dir = d +:+ "/") ->
  has_char "/" tail = false ->
  rfind "/" (dir +:+ tail) + 1 = Z.of_nat (String.length dir).
Proof.
  intros Hdir Htail. unfold rfind. rewrite rfind_from_app.
  rewrite (rfind_from_absent _ tail _ _ Htail).
  destruct Hdir as [-> | [d ->]]; [reflexivity|].
  rewrite rfind_from_app, str_length_app. cbn. lia.
Qed.

Lemma has_char_app (c : ascii) (s1 s2 : string) :
  has_char c (s1 +:+ s2) = has_char c s1 || has_char c s2.
Proof.
  induction s1 as [|a s1 IH]; [reflexivity|].
  rewrite str_app_cons. cbn. rewrite IH, orb_assoc. reflexivity.
Qed.

(** The extension of a path given by its directory part, its stem and
    what follows the last dot. *)
Lemma splitext_ext_parts (dir stem ext : string) :
  dir = EmptyString \/ (exists d, dir = d +:+ "/") ->
  has_char "/" stem = false ->
  has_char "." ext = false ->
  has_char "/" ext = false ->
  splitext_ext (dir +:+ stem +:+ "." +:+ ext)
  = if only_dots stem then EmptyString else "." +:+ ext.
Proof.
  intros Hdir Hstem Hdot Hslash. unfold splitext_ext.
  assert (has_char "/" (stem +:+ "." +:+ ext) = false) as Htail.
  { rewrite !has_char_app, Hstem, Hslash. reflexivity. }
  pose proof (rfind_slash_dir dir _ Hdir Htail) as Hsep.
  assert (rfind "." (dir +:+ stem +:+ "." +:+ ext)
          = Z.of_nat (String.length dir + String.length stem)) as Hdotix.
  { unfold rfind. rewrite <- str_app_assoc, rfind_from_app, str_length_app.
    change ("." +:+ ext) with (String "." ext). cbn [rfind_from].
    rewrite Ascii.eqb_refl. rewrite (rfind_from_absent _ ext _ _ Hdot). lia. }
  rewrite Hdotix.
  replace (rfind "/" (dir +:+ stem +:+ "." +:+ ext) + 1)
    with (Z.of_nat (String.length dir)) by lia.
  replace (rfind "/" (dir +:+ stem +:+ "." +:+ ext)
           <? Z.of_nat (String.length dir + String.length stem))
    with true by (symmetry; apply Z.ltb_lt; lia).
  rewrite Nat2Z.id.
  replace (Z.to_nat (Z.of_nat (String.length dir + String.length stem)
                     - Z.of_nat (String.length dir)))
    with (String.length stem) by lia.
  rewrite has_non_dot_stem, Nat2Z.id. cbn [andb].
  destruct (only_dots stem); [reflexivity|]. cbn [negb].
  rewrite <- str_app_assoc, <- (str_length_app dir stem).
  rewrite (str_length_app (dir +:+ stem)).
  replace (String.length (dir +:+ stem) + String.length ("." +:+ ext)
           - String.length (dir +:+ stem))%nat
    with (String.length ("." +:+ ext)) by lia.
  rewrite str_substring_app_r. apply str_substring_whole.
Qed.

(** X7: the extension of [dir/stem.ext].  When the directory part is empty
    or ends with a slash, the stem has no slash and the last component has
    neither dot nor slash after its last dot, the extension is [.ext],
    unless the stem is empty or made of dots only, in which case there is
    no extension (a file named [.jpg] has none). *)
Theorem splitext_ext_spec (dir stem ext : string) :
  dir = EmptyString \/ (exists d, dir = d +:+ "/") ->
  has_char "/" stem = false ->
  has_char "." ext = false ->
  has_char "/" ext = false ->
  splitext_ext (dir +:+ stem +:+ "." +:+ ext)
  = if only_dots stem then EmptyString else "." +:+ ext.
Proof. apply splitext_ext_parts. Qed.

Lemma lower_char_idem (c : ascii) : lower_char (lower_char c) = lower_char c.
Proof. destruct c as [[] [] [] [] [] [] [] []]; reflexivity. Qed.

Lemma lower_idem (s : string) : lower (lower s) = lower s.
Proof.
  induction s as [|a s IH]; [reflexivity|].
  cbn. rewrite lower_char_idem, IH. reflexivity.
Qed.

Lemma lower_char_dot (c : ascii) :
  Ascii.eqb (lower_char c) "." = Ascii.eqb c ".".
Proof. destruct c as [[] [] [] [] [] [] [] []]; reflexivity. Qed.

Lemma lower_char_slash (c : ascii) :
  Ascii.eqb (lower_char c) "/" = Ascii.eqb c "/".
Proof. destruct c as [[] [] [] [] [] [] [] []]; reflexivity. Qed.

Lemma has_dot_lower (s : string) : has_char "." (lower s) = has_char "." s.
Proof.
  induction s as [|a s IH]; [reflexivity|].
  cbn. rewrite lower_char_dot, IH. reflexivity.
Qed.

Lemma has_slash_lower (s : string) : has_char "/" (lower s) = has_char "/" s.
Proof.
  induction s as [|a s IH]; [reflexivity|].
  cbn. rewrite lower_char_slash, IH. reflexivity.
Qed.

(** X8: the filter does not look at the case of the extension: a path is let
    through exactly when the same path with its extension in lower case
    is. *)
Theorem valid_path_case_insensitive (valid_filetypes : list string)
    (dir stem ext : string) :
  dir = EmptyString \/ (exists d, dir = d +:+ "/") ->
  has_char "/" stem = false ->
  has_char "." ext = false ->
  has_char "/" ext = false ->
  valid_path valid_filetypes (dir +:+ stem +:+ "." +:+ ext)
  = valid_path valid_filetypes (dir +:+ stem +:+ "." +:+ lower ext).
Proof.
  intros Hdir Hstem Hdot Hslash. unfold valid_path.
  rewrite (splitext_ext_parts dir stem ext Hdir Hstem Hdot Hslash).
  rewrite (splitext_ext_parts dir stem (lower ext) Hdir Hstem)
    by (rewrite ?has_dot_lower, ?has_slash_lower; assumption).
  destruct (only_dots stem); [reflexivity|].
  change ("." +:+ ext) with (String "." ext).
  change ("." +:+ lower ext) with (String "." (lower ext)).
  cbn [lower]. rewrite lower_idem. reflexivity.
Qed.

(** X9: the allow-list is compared as it is given, with the lowered
    extension of the path: an allow-list none of whose entries is in lower
    case lets no path through. *)
Theorem valid_path_needs_lowercase_types (valid_filetypes : list string)
    (f : string) :
  Forall (fun t => lower t <> t) valid_filetypes ->
  valid_path valid_filetypes f = false.
Proof.
  unfold valid_path. induction 1 as [|t types Ht _ IH]; [reflexivity|].
  cbn [existsb]. rewrite IH, orb_false_r.
  apply String.eqb_neq. intros <-. apply Ht, lower_idem.
Qed.

End Extensions.

(** * Properties of the drop handler *)

Section Drop.

Import Drag.

Lemma split_space_cons (s : string) :
  exists part parts, split_space s = part :: parts.
Proof.
  destruct s as [|c s]; cbn; [eauto|].
  destruct (Ascii.eqb c " "); [eauto|].
  destruct (split_space s); eauto.
Qed.

Lemma split_space_no_space (s : string) :
  has_char " " s = false -> split_space s = [s].
Proof.
  induction s as [|c s IH]; cbn; [reflexivity|].
  intros H. apply orb_false_iff in H as [-> Hs]. rewrite (IH Hs). reflexivity.
Qed.

Lemma split_space_app (a b : string) :
  split_space (a +:+ String " " b) = split_space a ++ split_space b.
Proof.
  induction a as [|c a IH].
  - rewrite str_app_empty. reflexivity.
  - rewrite str_app_cons. cbn [split_space]. rewrite IH.
    destruct (Ascii.eqb c " "); [reflexivity|].
    destruct (split_space_cons a) as (part & parts & ->). reflexivity.
Qed.

Lemma split_space_prefix (c : ascii) (s : string) :
  Ascii.eqb c " " = false ->
  exists part parts,
    split_space s = part :: parts
    /\ split_space (String c s) = String c part :: parts.
Proof.
  intros Hc. destruct (split_space_cons s) as (part & parts & Hs).
  exists part, parts. split; [exact Hs|]. cbn. rewrite Hc, Hs. reflexivity.
Qed.

Lemma join_space_cons (part next : string) (rest : list string) :
  join_space (part :: next :: rest)
  = part +:+ String " " (join_space (next :: rest)).
Proof. reflexivity. Qed.

Lemma join_space_char (c : ascii) (part : string) (parts : list string) :
  join_space (String c part :: parts) = String c (join_space (part :: parts)).
Proof. destruct parts; reflexivity. Qed.

Lemma join_split (s : string) : join_space (split_space s) = s.
Proof.
  induction s as [|c s IH]; [reflexivity|]. cbn [split_space].
  destruct (split_space_cons s) as (part & parts & Hs). rewrite Hs in *.
  destruct (Ascii.eqb_spec c " ") as [-> | _].
  - rewrite join_space_cons, IH. reflexivity.
  - rewrite join_space_char, IH. reflexivity.
Qed.

Lemma split_join_concat (items : list string) :
  items <> [] ->
  split_space (join_space items) = concat (map split_space items).
Proof.
  induction items as [|item items IH]; [congruence|]. intros _.
  destruct items as [|next items].
  - cbn. rewrite app_nil_r. reflexivity.
  - rewrite join_space_cons, split_space_app, IH by discriminate. reflexivity.
Qed.

Lemma join_space_snoc (parts : list string) (part last : string) :
  join_space ((part :: parts) ++ [last])
  = join_space (part :: parts) +:+ String " " last.
Proof.
  revert part. induction parts as [|next parts IH]; intros part; [reflexivity|].
  change ((part :: next :: parts) ++ [last])
    with (part :: ((next :: parts) ++ [last])).
  destruct ((next :: parts) ++ [last]) as [|x xs] eqn:Hx; [discriminate|].
  rewrite join_space_cons, <- Hx, IH, join_space_cons, str_app_assoc.
  reflexivity.
Qed.

Lemma last_char_snoc (s : string) (c : ascii) :
  last_char (s +:+ String c EmptyString) = Some c.
Proof.
  induction s as [|a s IH]; [reflexivity|]. rewrite str_app_cons.
  cbn [last_char]. rewrite IH.
  destruct (s +:+ String c EmptyString) eqn:Hs; [|reflexivity].
  destruct s; discriminate.
Qed.

Lemma drop_last_snoc (s : string) (c : ascii) :
  drop_last (s +:+ String c EmptyString) = s.
Proof.
  induction s as [|a s IH]; [reflexivity|]. rewrite str_app_cons.
  cbn [drop_last]. rewrite IH.
  destruct (s +:+ String c EmptyString) eqn:Hs; [|reflexivity].
  destruct s; discriminate.
Qed.

Lemma last_char_absent (c : ascii) (s : string) :
  has_char c s = false -> s <> EmptyString ->
  exists l, last_char s = Some l /\ Ascii.eqb l c = false.
Proof.
  induction s as [|a s IH]; [congruence|]. cbn [has_char last_char].
  intros H _. apply orb_false_iff in H as [Ha Hs].
  destruct s as [|b s]; [exists a; split; [reflexivity|exact Ha]|].
  apply IH; [exact Hs|discriminate].
Qed.

(** The brace branch of the outer loop in terms of [close_group]. *)
Lemma drag_paths_scan (rest group ps : list string) :
  (fix scan (group ps : list string) {struct ps} : result (list string) :=
     match ps with
     | [] => drag_paths rest
     | p :: ps' =>
         match last_char p with
         | None => Raise IndexError
         | Some l =>
             if Ascii.eqb l "}" then
               paths ← drag_paths ps';
               Ok (strip_ends (join_space (rev (p :: group))) :: paths)
             else scan (p :: group) ps'
         end
     end) group ps
  = match close_group group ps with
    | Raise e => Raise e
    | Ok None => drag_paths rest
    | Ok (Some (full, after)) => paths ← drag_paths after; Ok (full :: paths)
    end.
Proof.
  revert group. induction ps as [|p ps IH]; intros group; [reflexivity|].
  cbn [close_group]. destruct (last_char p) as [l|]; [|reflexivity].
  destruct (Ascii.eqb l "}"); [reflexivity|]. apply IH.
Qed.

Lemma drag_paths_brace (part : string) (rest : list string) :
  String.get 0 part = Some "{"%char ->
  drag_paths (part :: rest)
  = match close_group [] (part :: rest) with
    | Raise e => Raise e
    | Ok None => drag_paths rest
    | Ok (Some (full, after)) => paths ← drag_paths after; Ok (full :: paths)
    end.
Proof.
  intros Hfirst. cbn [drag_paths close_group]. rewrite Hfirst. cbn [negb Ascii.eqb].
  change (Ascii.eqb "{" "{") with true. cbn [negb].
  destruct (last_char part) as [l|]; [|reflexivity].
  destruct (Ascii.eqb l "}"); [reflexivity|].
  apply drag_paths_scan.
Qed.

Lemma drag_paths_plain (part : string) (rest : list string) (c : ascii) :
  String.get 0 part = Some c -> Ascii.eqb c "{" = false ->
  drag_paths (part :: rest) = (paths ← drag_paths rest; Ok (part :: paths)).
Proof. intros Hfirst Hc. cbn [drag_paths]. rewrite Hfirst, Hc. reflexivity. Qed.

Lemma no_double_space_tail (c : ascii) (s : string) :
  no_double_space (String c s) = true -> no_double_space s = true.
Proof. cbn. intros H. apply andb_true_iff in H as [_ H]. exact H. Qed.

Lemma no_double_space_after_space (s : string) :
  no_double_space (String " " s) = true ->
  match s with
  | String d _ => Ascii.eqb d " " = false
  | EmptyString => True
  end.
Proof.
  destruct s as [|d s]; [trivial|]. cbn. intros H.
  apply andb_true_iff in H as [H _]. destruct (Ascii.eqb d " ");
    [discriminate|reflexivity].
Qed.

(** The inner loop on the parts of [cur ++ s ++ "}"], where [cur] is the
    beginning of the part being read: it finds the closing brace at the
    end, whatever follows. *)
Lemma close_group_string (s cur : string) (group more : list string) :
  has_char " " cur = false ->
  has_char "}" cur = false ->
  has_char "}" s = false ->
  no_double_space s = true ->
  cur <> EmptyString
  \/ match s with
     | String d _ => Ascii.eqb d " " = false
     | EmptyString => True
     end ->
  close_group group (split_space (cur +:+ s +:+ "}") ++ more)
  = Ok (Some (strip_ends
                (join_space (rev group ++ split_space (cur +:+ s +:+ "}"))),
              more)).
Proof.
  revert cur group. induction s as [|c s IH]; intros cur group Hsp Hbr Hs Hdd Hne.
  - rewrite str_app_empty.
    rewrite split_space_no_space
      by (rewrite has_char_app, Hsp; reflexivity).
    cbn [app close_group]. rewrite last_char_snoc.
    change (Ascii.eqb "}" "}") with true. cbn [rev]. reflexivity.
  - cbn [has_char] in Hs. apply orb_false_iff in Hs as [Hc Hs].
    pose proof (no_double_space_tail _ _ Hdd) as Hdd'.
    destruct (Ascii.eqb_spec c " ") as [-> | Hcs].
    + rewrite str_app_cons, split_space_app.
      rewrite (split_space_no_space cur Hsp).
      assert (cur <> EmptyString) as Hcur.
      { destruct Hne as [H | H]; [exact H|discriminate H]. }
      destruct (last_char_absent "}" cur Hbr Hcur) as (l & Hl & Hlb).
      cbn [app close_group]. rewrite Hl, Hlb.
      specialize (IH EmptyString (cur :: group) eq_refl eq_refl Hs Hdd').
      rewrite str_app_empty in IH. rewrite IH.
      * cbn [rev]. rewrite <- app_assoc. reflexivity.
      * right. apply no_double_space_after_space. exact Hdd.
    + assert (cur +:+ String c s +:+ "}"
              = (cur +:+ String c EmptyString) +:+ s +:+ "}") as ->.
      { rewrite str_app_assoc. reflexivity. }
      apply IH; auto.
      * rewrite has_char_app, Hsp. cbn.
        destruct (Ascii.eqb_spec c " "); [contradiction|reflexivity].
      * rewrite has_char_app, Hbr. cbn. rewrite Hc. reflexivity.
      * left. destruct cur; discriminate.
Qed.

(** One item of the data, and what follows it. *)
Lemma drag_paths_item (path : string) (more : list string) :
  droppable path ->
  drag_paths (split_space (drop_item path) ++ more)
  = (paths ← drag_paths more; Ok (path :: paths)).
Proof.
  intros (Hne & Hopen & Hclose & Hdd). unfold drop_item.
  destruct (has_char " " path) eqn:Hsp.
  - change ("{" +:+ path +:+ "}") with (String "{" (path +:+ "}")).
    destruct (split_space_prefix "{" (path +:+ "}") eq_refl)
      as (part & parts & _ & Hsplit).
    assert (has_char " " "{" = false) as Hb1 by reflexivity.
    assert (has_char "}" "{" = false) as Hb2 by reflexivity.
    assert ("{"%string <> EmptyString) as Hb3 by discriminate.
    pose proof (close_group_string path "{" [] more Hb1 Hb2 Hclose Hdd
                  (or_introl Hb3)) as Hscan.
    change ("{" +:+ path +:+ "}") with (String "{" (path +:+ "}")) in Hscan.
    rewrite Hsplit in *. cbn [app] in *.
    rewrite drag_paths_brace by reflexivity. rewrite Hscan.
    rewrite <- Hsplit. cbn [rev app]. rewrite join_split.
    cbn [strip_ends]. rewrite drop_last_snoc. reflexivity.
  - rewrite (split_space_no_space path Hsp). cbn [app].
    destruct path as [|c path]; [congruence|].
    cbn [has_char] in Hopen. apply orb_false_iff in Hopen as [Hc _].
    apply (drag_paths_plain _ _ c); [reflexivity|exact Hc].
Qed.

Lemma drag_paths_items (paths : list string) :
  Forall droppable paths ->
  drag_paths (concat (map split_space (map drop_item paths))) = Ok paths.
Proof.
  induction 1 as [|path paths Hpath _ IH]; [reflexivity|].
  cbn [map concat]. rewrite (drag_paths_item path _ Hpath), IH. reflexivity.
Qed.

(** X17: the round trip of the drop format.  For a list of paths, not empty,
    none of them empty or containing a brace or two spaces in a row, the
    data in which the paths stand separated by one space, those that contain
    a space wrapped in braces, is read back as the list. *)
Theorem generic_drag_round_trip (paths : list string) :
  paths <> [] ->
  Forall droppable paths ->
  generic_drag (drop_data paths) = Ok paths.
Proof.
  intros Hne Hall. unfold generic_drag, drop_data.
  rewrite split_join_concat by (destruct paths; [congruence|discriminate]).
  apply drag_paths_items. exact Hall.
Qed.

(** X18: a part of the data that is empty makes the handler raise
    [IndexError]: so do the empty data and any data that starts with a
    space, and so does a space that follows a list of well-formed items. *)
Theorem generic_drag_stray_space (paths : list string) (data : string) :
  generic_drag EmptyString = Raise IndexError
  /\ generic_drag (String " " data) = Raise IndexError
  /\ (paths <> [] -> Forall droppable paths ->
      generic_drag (drop_data paths +:+ " ") = Raise IndexError).
Proof.
  split; [reflexivity|]. split; [reflexivity|].
  intros Hne Hall. unfold generic_drag, drop_data.
  change (" ") with (String " " EmptyString) at 1.
  rewrite split_space_app, split_join_concat
    by (destruct paths; [congruence|discriminate]).
  cbn [split_space].
  clear Hne. induction Hall as [|path paths Hpath _ IH]; [reflexivity|].
  cbn [map concat]. rewrite <- app_assoc.
  rewrite (drag_paths_item path _ Hpath).
  cbn [map concat] in IH. rewrite IH. reflexivity.
Qed.

(** X19: a group that is never closed.  When a part starts with an opening
    brace and neither it nor any part after it ends with a closing brace
    (none of them being empty), the part is dropped and the parts after it
    are read as if it had not been there. *)
Theorem drag_paths_unclosed_group (part : string) (rest : list string) :
  String.get 0 part = Some "{"%char ->
  Forall (fun p => exists l, last_char p = Some l /\ Ascii.eqb l "}" = false)
         (part :: rest) ->
  drag_paths (part :: rest) = drag_paths rest.
Proof.
  intros Hfirst Hall. rewrite (drag_paths_brace _ _ Hfirst).
  assert (forall group ps,
             Forall (fun p => exists l, last_char p = Some l
                                        /\ Ascii.eqb l "}" = false) ps ->
             close_group group ps = Ok None) as Hnone.
  { intros group ps Hps. revert group.
    induction Hps as [|p ps (l & Hl & Hlb) _ IH]; intros group; [reflexivity|].
    cbn [close_group]. rewrite Hl, Hlb. apply IH. }
  rewrite (Hnone [] _ Hall). reflexivity.
Qed.

End Drop.

(** * Properties of the stripping of the tags *)

Section Stripping.

Import Strip.

Lemma strip_image_stripped (photo : Image) (out : list line) :
  (strip_image photo out).1 = stripped photo.
Proof.
  destruct photo as [t [la|] [lo|] [lr|] [lor|]]; reflexivity.
Qed.

Lemma strip_file_idem (f : option file) : strip_file (strip_file f) = strip_file f.
Proof. destruct f as [[photo| |]|]; reflexivity. Qed.

Lemma strip_photo_lookup (photo_path q : string) (fs : gmap string file)
    (out : list line) :
  (strip_photo photo_path (fs, out)).1 !! q
  = if decide (q = photo_path) then strip_file (fs !! q) else fs !! q.
Proof.
  unfold strip_photo, load_photo. cbn [files fst].
  destruct (decide (q = photo_path)) as [-> | Hne];
    destruct (fs !! photo_path) as [[photo| |]|] eqn:Hf; cbn [fst strip_file];
    try (rewrite Hf; reflexivity); try reflexivity.
  - pose proof (strip_image_stripped photo out) as Hs.
    destruct (strip_image photo out) as [photo' out']. cbn [fst] in *.
    rewrite lookup_insert_eq, Hs. reflexivity.
  - pose proof (strip_image_stripped no_exif out) as Hs.
    destruct (strip_image no_exif out) as [photo' out']. cbn [fst] in *.
    rewrite lookup_insert_eq, Hs. reflexivity.
  - destruct (strip_image photo out) as [photo' out']. cbn [fst].
    rewrite !lookup_insert_ne by congruence. reflexivity.
  - destruct (strip_image no_exif out) as [photo' out']. cbn [fst].
    rewrite !lookup_insert_ne by congruence. reflexivity.
Qed.

Lemma strip_photo_image (photo_path : string) (fs : gmap string file)
    (out : list line) (photo : Image) :
  fs !! photo_path = Some (ImageFile photo) ->
  (strip_photo photo_path (fs, out)).1
  = <[photo_path := ImageFile (stripped photo)]> fs.
Proof.
  intros Hf. unfold strip_photo, load_photo. cbn [files fst]. rewrite Hf.
  cbn [fst]. pose proof (strip_image_stripped photo out) as Hs.
  destruct (strip_image photo out) as [photo' out']. cbn [fst] in *.
  rewrite insert_insert_eq, Hs. reflexivity.
Qed.

Lemma strip_all_lookup (paths : list string) (st : gmap string file * list line)
    (q : string) :
  (fold_left (fun st p => strip_photo p st) paths st).1 !! q
  = if decide (q ∈ paths) then strip_file (st.1 !! q) else st.1 !! q.
Proof.
  revert st. induction paths as [|p paths IH]; intros [fs out].
  - cbn. destruct (decide (q ∈ [])) as [Hin|_]; [|reflexivity].
    apply elem_of_nil in Hin as [].
  - cbn [fold_left]. rewrite IH.
    destruct (strip_photo p (fs, out)) as [fs1 out1] eqn:Hstep.
    pose proof (strip_photo_lookup p q fs out) as Hq.
    rewrite Hstep in Hq. cbn [fst] in *. rewrite Hq.
    destruct (decide (q = p)) as [-> | Hne].
    + rewrite (decide_True (P := p ∈ p :: paths)) by apply list_elem_of_here.
      destruct (decide (p ∈ paths)); [apply strip_file_idem|reflexivity].
    + destruct (decide (q ∈ paths)) as [Hin | Hnin].
      * rewrite decide_True by (apply list_elem_of_further; exact Hin).
        reflexivity.
      * rewrite decide_False; [reflexivity|].
        intros Hin. apply elem_of_cons in Hin as [? | ?]; contradiction.
Qed.

(** X20: once the folder is listed, the stripping returns; afterwards every
    listed image has lost its four location tags and kept its capture time,
    a listed path that is missing or cannot be decoded is as it was, and so
    is every path that is not listed. *)
Theorem test_strip_locations_spec (listdir : string -> result (list string))
    (folder : string) (names : list string) (fs : gmap string file) :
  listdir folder = Ok names ->
  exists fs' out,
    test_strip_locations listdir folder fs = (Ok tt, (fs', out))
    /\ (forall q photo,
          q ∈ map (path_join folder) names ->
          fs !! q = Some (ImageFile photo) ->
          fs' !! q = Some (ImageFile (stripped photo)))
    /\ (forall q,
          q ∈ map (path_join folder) names ->
          fs !! q = None \/ fs !! q = Some CorruptFile ->
          fs' !! q = fs !! q)
    /\ (forall q, q ∉ map (path_join folder) names -> fs' !! q = fs !! q).
Proof.
  intros Hlist. unfold test_strip_locations. rewrite Hlist.
  destruct (fold_left (fun st p => strip_photo p st)
              (map (path_join folder) names) (fs, [])) as [fs' out] eqn:Hfold.
  exists fs', out. split; [reflexivity|].
  assert (forall q, fs' !! q
                    = if decide (q ∈ map (path_join folder) names)
                      then strip_file (fs !! q) else fs !! q) as Hlookup.
  { intros q. pose proof (strip_all_lookup (map (path_join folder) names)
                            (fs, []) q) as H.
    rewrite Hfold in H. exact H. }
  repeat split.
  - intros q photo Hin Hq. rewrite Hlookup, decide_True, Hq by exact Hin.
    reflexivity.
  - intros q Hin Hq. rewrite Hlookup, decide_True by exact Hin.
    destruct Hq as [-> | ->]; reflexivity.
  - intros q Hnin. rewrite Hlookup, decide_False by exact Hnin. reflexivity.
Qed.

(** When the folder cannot be listed, the exception of the listing leaves
    the function: nothing is printed and no file is touched. *)
Lemma test_strip_locations_no_folder
    (listdir : string -> result (list string)) (folder : string) (e : exn)
    (fs : gmap string file) :
  listdir folder = Raise e ->
  test_strip_locations listdir folder fs = (Raise e, (fs, [])).
Proof. intros Hlist. unfold test_strip_locations. rewrite Hlist. reflexivity. Qed.

End Stripping.

Section StripAndTag.

Context `{R : Runtime}.

Lemma with_location_stripped (photo : Image) (lat lon : Z * Z * float * Z) :
  with_location (stripped photo) lat lon = with_location photo lat lon.
Proof.
  destruct lat as [[[? ?] ?] ?], lon as [[[? ?] ?] ?]. reflexivity.
Qed.

(** X21: stripping and then tagging.  For a photo inside the track, tagging
    it without the overwrite flag after its tags have been stripped, and
    tagging it as it is with the overwrite flag, leave a photo that reads
    back alike: the same capture time and the same four location tags. *)
Theorem strip_then_tag (points_df : DataFrame) (off : timedelta)
    (photo_path : string) (w : world) (photo : Image) (s : string)
    (dt lo hi : datetime) (photolat photolon : float)
    (lat lon : Z * Z * float * Z) :
  files w !! photo_path = Some (ImageFile photo) ->
  datetime_original photo = Some s ->
  strptime_exif s = Some dt ->
  lo <= dt + off <= hi ->
  interpolate points_df (timestamp (dt + off)) = Ok (photolat, photolon) ->
  deg_to_dms photolat = Ok lat ->
  deg_to_dms photolon = Ok lon ->
  (load_photo photo_path
     (tag_photo points_df (Some lo) (Some hi) (Some off) false photo_path
        (World (Strip.strip_photo photo_path (files w, [])).1 (console w))).2).1
  = (load_photo photo_path
       (tag_photo points_df (Some lo) (Some hi) (Some off) true photo_path
          w).2).1.
Proof.
  intros Hfile Htime Hparse Hin Hinterp Hlat Hlon.
  assert (photo_has_lat_long photo && negb true = false) as Hover
    by apply andb_false_r.
  rewrite (tag_photo_tagged _ _ _ _ _ _ _ _ _ _ _ _ _ _
             Hfile Htime Hparse Hover Hin Hinterp Hlat Hlon).
  rewrite (strip_photo_image _ _ _ _ Hfile).
  erewrite (tag_photo_tagged _ _ false _ _ (stripped photo) s);
    [| cbn [files]; apply lookup_insert_eq | exact Htime | exact Hparse
     | reflexivity | exact Hin | exact Hinterp | exact Hlat | exact Hlon].
  unfold load_photo. cbn [snd files].
  rewrite !lookup_insert_eq, with_location_stripped. reflexivity.
Qed.

End StripAndTag.

(** * The further theorems at work on the sample data *)

Section MoreWitnesses.

Import Sample.

Lemma deg_to_dms_hemi_witness :
  0 <= 45 /\ (1 = 1 /\ 0 < 45 \/ 1 = -1).
Proof.
  apply (deg_to_dms_hemi 45.5%float 45 30 0%float 1).
  vm_compute; reflexivity.
Defined.

Lemma extract_points_first_failure_witness :
  @extract_points Utc.runtime (Document ([pt_start] ++ pt_no_lat :: [pt_end]))
  = Raise TypeError.
Proof.
  eapply (@extract_points_first_failure Utc.runtime [pt_start] [pt_end]
            pt_no_lat); vm_compute; reflexivity.
Defined.

Lemma tag_photos_after_failed_load_witness :
  let w := disk [("a.jpg", ImageFile photo_mid)] in
  @tag_photos Utc.runtime
    (@edit_gpx Utc.runtime (Document [pt_start; pt_no_lat]))
    ["a.jpg"] (Some 0) default_filetypes false w
  = (Raise KeyError, w).
Proof.
  cbv zeta.
  apply (@tag_photos_after_failed_load Utc.runtime
           (Document [pt_start; pt_no_lat]) TypeError).
  vm_compute; reflexivity.
Defined.

Lemma splitext_ext_spec_witness :
  Path.splitext_ext ("photos/" +:+ "IMG_1" +:+ "." +:+ "JPG")
  = if only_dots "IMG_1" then EmptyString else "." +:+ "JPG".
Proof.
  apply splitext_ext_spec; [right; exists "photos"%string|..]; reflexivity.
Defined.

Lemma valid_path_case_insensitive_witness :
  valid_path default_filetypes ("photos/" +:+ "IMG_1" +:+ "." +:+ "JPG")
  = valid_path default_filetypes
      ("photos/" +:+ "IMG_1" +:+ "." +:+ Path.lower "JPG").
Proof.
  apply valid_path_case_insensitive;
    [right; exists "photos"%string|..]; reflexivity.
Defined.

Lemma valid_path_needs_lowercase_types_witness :
  valid_path [".JPG"; ".Jpeg"]%string "photos/IMG_1.JPG" = false.
Proof.
  apply valid_path_needs_lowercase_types.
  repeat constructor; discriminate.
Defined.

Lemma tag_photos_skips_other_types_witness :
  let w := disk [("a.jpg", ImageFile photo_mid); ("b.jpg", ImageFile photo_end)] in
  @tag_photos Utc.runtime track (["a.jpg"] ++ "notes.txt" :: ["b.jpg"])
    (Some 0) default_filetypes false w
  = @tag_photos Utc.runtime track (["a.jpg"] ++ ["b.jpg"])
      (Some 0) default_filetypes false w.
Proof.
  cbv zeta. apply (@tag_photos_skips_other_types Utc.runtime). reflexivity.
Defined.

Lemma tag_photos_frame_rule_witness :
  let w := disk [("a.jpg", ImageFile photo_mid);
                 ("notes.txt", ImageFile photo_mid)] in
  files (@tag_photos Utc.runtime track ["a.jpg"; "notes.txt"]%string (Some 0)
           default_filetypes false w).2 !! "notes.txt"
  = files w !! "notes.txt".
Proof.
  cbv zeta. apply (@tag_photos_frame_rule Utc.runtime). right. reflexivity.
Defined.

Lemma tag_photos_twice_witness :
  let w := disk [("a.jpg", ImageFile photo_mid);
                 ("b.jpg", ImageFile photo_before)] in
  let w1 := (@tag_photos Utc.runtime track ["a.jpg"; "b.jpg"]%string (Some 0)
               default_filetypes false w).2 in
  exists msgs,
    @tag_photos Utc.runtime track ["a.jpg"; "b.jpg"]%string (Some 0)
      default_filetypes false w1
    = (Ok tt, World (files w1) (console w1 ++ msgs)).
Proof.
  cbv zeta.
  apply (@tag_photos_twice Utc.runtime track ["a.jpg"; "b.jpg"]%string (Some 0)
           default_filetypes
           (disk [("a.jpg", ImageFile photo_mid);
                  ("b.jpg", ImageFile photo_before)])).
  vm_compute; reflexivity.
Defined.

Lemma tag_photo_failed_conversion_empties_file_witness :
  let w := disk [("a.jpg", ImageFile photo_mid)] in
  exists e w',
    @tag_photo Utc.runtime track_nan (Some 1704067200000000)
      (Some 1704067300000000) (Some 0) false "a.jpg" w
    = (Raise e, w')
    /\ files w' = <["a.jpg"%string := EmptyFile]> (files w).
Proof.
  cbv zeta.
  apply (@tag_photo_failed_conversion_empties_file Utc.runtime track_nan 0
           false "a.jpg" (disk [("a.jpg", ImageFile photo_mid)]) photo_mid
           "2024:01:01 00:00:50" 1704067250000000
           1704067200000000 1704067300000000 nan 10%float);
    try (vm_compute; reflexivity).
  - lia.
  - left. exists ValueError. vm_compute; reflexivity.
Defined.

Lemma tag_photo_partial_old_tags_witness :
  let w := disk [("a.jpg", ImageFile photo_lon_only)] in
  @tag_photo Utc.runtime track (Some 1704067200000000)
    (Some 1704067300000000) (Some 0) true "a.jpg" w
  = (Ok tt,
     World (<["a.jpg"%string := ImageFile
                (with_location photo_lon_only
                   (5, 0, 0%float, 1) (10, 0, 0%float, 1))]> (files w))
           (console w ++ [AddingLocation "a.jpg"; DeleteFailed "a.jpg"])).
Proof.
  cbv zeta.
  apply (@tag_photo_partial_old_tags Utc.runtime track 0 "a.jpg"
           (disk [("a.jpg", ImageFile photo_lon_only)]) photo_lon_only
           "2024:01:01 00:00:50" 1704067250000000
           1704067200000000 1704067300000000 5%float 10%float);
    try (vm_compute; reflexivity).
  - left. split; [reflexivity|eexists; reflexivity].
  - lia.
Defined.

Lemma generic_drag_round_trip_witness :
  Drag.generic_drag (drop_data ["a.jpg"; "my photo.jpg"; "c.gpx"]%string)
  = Ok ["a.jpg"; "my photo.jpg"; "c.gpx"]%string.
Proof.
  apply generic_drag_round_trip; [discriminate|].
  repeat constructor; discriminate.
Defined.

Lemma generic_drag_stray_space_witness :
  Drag.generic_drag EmptyString = Raise IndexError
  /\ Drag.generic_drag (String " " "a.jpg") = Raise IndexError
  /\ Drag.generic_drag (drop_data ["a.jpg"; "my photo.jpg"]%string +:+ " ")
     = Raise IndexError.
Proof.
  destruct (generic_drag_stray_space ["a.jpg"; "my photo.jpg"]%string "a.jpg")
    as (Hempty & Hlead & Htrail).
  split; [exact Hempty|]. split; [exact Hlead|].
  apply Htrail; [discriminate|]. repeat constructor; discriminate.
Defined.

Lemma drag_paths_unclosed_group_witness :
  Drag.drag_paths ("{my"%string :: ["photo.jpg"; "b.jpg"]%string)
  = Drag.drag_paths ["photo.jpg"; "b.jpg"]%string.
Proof.
  apply drag_paths_unclosed_group; [reflexivity|].
  repeat constructor; eexists; split; reflexivity.
Defined.

Lemma test_strip_locations_spec_witness :
  exists fs' out,
    Strip.test_strip_locations listdir "photos" photos = (Ok tt, (fs', out))
    /\ (forall q photo,
          q ∈ map (Strip.path_join "photos") ["a.jpg"; "b.jpg"]%string ->
          photos !! q = Some (ImageFile photo) ->
          fs' !! q = Some (ImageFile (stripped photo)))
    /\ (forall q,
          q ∈ map (Strip.path_join "photos") ["a.jpg"; "b.jpg"]%string ->
          photos !! q = None \/ photos !! q = Some CorruptFile ->
          fs' !! q = photos !! q)
    /\ (forall q,
          q ∉ map (Strip.path_join "photos") ["a.jpg"; "b.jpg"]%string ->
          fs' !! q = photos !! q).
Proof.
  apply (test_strip_locations_spec listdir "photos"
           ["a.jpg"; "b.jpg"]%string photos).
  reflexivity.
Defined.

Lemma strip_then_tag_witness :
  let w := disk [("a.jpg", ImageFile (old_gps photo_mid))] in
  (load_photo "a.jpg"
     (@tag_photo Utc.runtime track (Some 1704067200000000)
        (Some 1704067300000000) (Some 0) false "a.jpg"
        (World (Strip.strip_photo "a.jpg" (files w, [])).1 (console w))).2).1
  = (load_photo "a.jpg"
       (@tag_photo Utc.runtime track (Some 1704067200000000)
          (Some 1704067300000000) (Some 0) true "a.jpg" w).2).1.
Proof.
  cbv zeta.
  apply (@strip_then_tag Utc.runtime track 0 "a.jpg"
           (disk [("a.jpg", ImageFile (old_gps photo_mid))])
           (old_gps photo_mid) "2024:01:01 00:00:50" 1704067250000000
           1704067200000000 1704067300000000 5%float 10%float
           (5, 0, 0%float, 1) (10, 0, 0%float, 1));
    try (vm_compute; reflexivity).
  lia.
Defined.

End MoreWitnesses.
